(** * Terminal diary: the two storage backends of [diary.py]

    A shallow embedding of [SQLiteStorage] and [JSONStorage] and of the
    query and mutation contract they share.

    Conventions of the model.
    - Text is a Rocq [string].  Python's [str.lower] and the case folding of
      SQLite's [LIKE] are both the folding of the letters A-Z, which is what
      they are on ASCII text; what depends on the folding is stated for
      ASCII text.
    - Strings are ordered lexicographically by character code
      ([String.compare]); this is Python's [<] on [str] and SQLite's default
      BINARY collation.
    - [uuid4()] and [datetime.utcnow().isoformat()] are inputs of the
      operation that calls them: every operation receives the id that would
      be generated and the timestamp that would be read.
    - An SQLite table is the list of its rows in rowid order, which is the
      order a full scan visits them; [ORDER BY k DESC] is a descending sort
      that keeps rows with equal keys in scan order.
    - The JSON document is the list under its ["entries"] key; a document
      without the key behaves as one holding the empty list
      ([data.get("entries", [])], [data.setdefault("entries", [])]). *)

From Stdlib Require Import Strings.String Strings.Ascii Lists.List Bool.Bool.
From Stdlib Require Import Arith.PeanoNat micromega.Lia.
From Stdlib Require Import Sorting.Permutation Sorting.Sorted.
From Stdlib Require Import Structures.OrdersEx.
Import ListNotations.

Open Scope string_scope.
Open Scope bool_scope.

(** ** Text primitives *)

Module Text.

(** One character of [str.lower()] on ASCII text: the letters A to Z are
    folded and nothing else is.  On other text [str.lower()] folds more;
    what is proved of it here is stated for ASCII text. *)
Definition lower_char (c : ascii) : ascii :=
  if (Ascii.leb "A" c && Ascii.leb c "Z")%char
  then ascii_of_nat (nat_of_ascii c + 32)
  else c.

(** [s.lower()] *)
Fixpoint lower (s : string) : string :=
  match s with
  | EmptyString => EmptyString
  | String c s' => String (lower_char c) (lower s')
  end.

(** [a in b] on strings: [a] occurs in [b] as a contiguous substring. *)
Fixpoint contains (a b : string) : bool :=
  String.prefix a b
  || match b with
     | EmptyString => false
     | String _ b' => contains a b'
     end.

(** [",".join(tags)] *)
Definition join (tags : list string) : string := String.concat "," tags.

(** [s.split(",")]: the pieces between the commas; never the empty list. *)
Fixpoint split (s : string) : list string :=
  match s with
  | EmptyString => [EmptyString]
  | String c s' =>
      if (c =? ",")%char then EmptyString :: split s'
      else match split s' with
           | [] => [String c EmptyString]
           | piece :: pieces => String c piece :: pieces
           end
  end.

(** The part of a text before its first NUL character: SQLite's [LIKE] reads
    its pattern and its text up to there. *)
Fixpoint until_nul (s : string) : string :=
  match s with
  | EmptyString => EmptyString
  | String c s' =>
      if (c =? "000")%char then EmptyString else String c (until_nul s')
  end.

(** The matching of [LIKE] without an ESCAPE clause: [%] stands for any run
    of characters, [_] for any one character, and any other character for
    itself up to ASCII case. *)
Fixpoint like_chars (p : string) : string -> bool :=
  match p with
  | EmptyString =>
      fun s => match s with EmptyString => true | String _ _ => false end
  | String c p' =>
      if (c =? "%")%char then
        fix any (s : string) : bool :=
          like_chars p' s
          || match s with
             | EmptyString => false
             | String _ s' => any s'
             end
      else if (c =? "_")%char then
        fun s => match s with
                 | EmptyString => false
                 | String _ s' => like_chars p' s'
                 end
      else
        fun s => match s with
                 | EmptyString => false
                 | String c' s' =>
                     (lower_char c =? lower_char c')%char && like_chars p' s'
                 end
  end.

(** SQLite's [s LIKE p], for a pattern of at most 50000 bytes (a longer one
    is refused): the pattern and the text are each read up to their first
    NUL.  Characters are single bytes, as in ASCII text. *)
Definition like (p s : string) : bool :=
  like_chars (until_nul p) (until_nul s).

(** The tags [_row_to_entry] reads from the column: none when the column is
    empty, else its pieces. *)
Definition decode (column : string) : list string :=
  if (column =? "")%string then [] else split column.

(** A keyword holds no [LIKE] wildcard. *)
Fixpoint no_wildcard (s : string) : bool :=
  match s with
  | EmptyString => true
  | String c s' => negb (c =? "%")%char && negb (c =? "_")%char && no_wildcard s'
  end.

(** A string holds no NUL character. *)
Fixpoint no_nul (s : string) : bool :=
  match s with
  | EmptyString => true
  | String c s' => negb (c =? "000")%char && no_nul s'
  end.

(** A string is ASCII text: every character code is below 128. *)
Fixpoint is_ascii (s : string) : bool :=
  match s with
  | EmptyString => true
  | String c s' => Nat.ltb (nat_of_ascii c) 128 && is_ascii s'
  end.

(** A string holds no comma. *)
Fixpoint no_comma (s : string) : bool :=
  match s with
  | EmptyString => true
  | String c s' => negb (c =? ",")%char && no_comma s'
  end.

End Text.

(** ** Sorting *)

Section Sorting.

Context {A : Type}.

(** [lt x y]: the sort key of [x] is strictly below the sort key of [y]. *)
Variable lt : A -> A -> bool.

Fixpoint insert_desc (x : A) (l : list A) : list A :=
  match l with
  | [] => [x]
  | y :: l' => if lt x y then y :: insert_desc x l' else x :: y :: l'
  end.

(** [sorted(l, key=..., reverse=True)] and [ORDER BY ... DESC]: descending
    by key, elements with equal keys in their original order. *)
Fixpoint sorted_desc (l : list A) : list A :=
  match l with
  | [] => []
  | x :: l' => insert_desc x (sorted_desc l')
  end.

(** The order a descending sort establishes: no element is strictly below
    its successor. *)
Definition desc (a b : A) : Prop := lt a b = false.

End Sorting.

(** ** Data model *)

(** What a raised exception is. *)
Inductive exn : Type :=
| KeyError (key : string)   (* [entry["date"]] on a dict without the key *)
| IntegrityError.           (* INSERT of an id that is already a primary key *)

Inductive result (A : Type) : Type :=
| Ok (a : A)
| Raise (e : exn).
Arguments Ok {A} a.
Arguments Raise {A} e.

(** The dict a caller passes to [add_entry] and [update_entry]: each key may
    be absent. *)
Module Draft.
Record t : Type := mk {
  id : option string;
  date : option string;
  title : option string;
  body : option string;
  mood : option string;
  tags : option (list string)
}.
End Draft.

(** [d.get(key, default)] *)
Definition get_default {A : Type} (field : option A) (default : A) : A :=
  match field with
  | Some v => v
  | None => default
  end.

(** The dict both backends hand back to the caller. *)
Module Entry.
Record t : Type := mk {
  id : string;
  date : string;
  title : string;
  body : string;
  mood : string;
  tags : list string;
  created_at : string;
  updated_at : string
}.
End Entry.

(** A row of the table [entries]: every column is TEXT. *)
Module Row.
Record t : Type := mk {
  id : string;
  date : string;
  title : string;
  body : string;
  mood : string;
  tags : string;
  created_at : string;
  updated_at : string
}.
End Row.

(** Tuple order of Python and of a two-column [ORDER BY]: first component,
    then second. *)
Definition pair_ltb (a b : string * string) : bool :=
  (fst a <? fst b) || ((fst a =? fst b) && (snd a <? snd b)).

(** ** The storage interface *)

(** [StorageInterface]: the eight operations every backend implements, over
    the state [store] the backend keeps between calls.  A mutating operation
    returns the new state next to its result; [add_entry] and [update_entry]
    also receive what [uuid4()] and [utcnow().isoformat()] return during the
    call. *)
Class StorageInterface (store : Type) : Type := {
  add_entry : store -> Draft.t -> string -> string -> result (string * store);
  get_entry : store -> string -> option Entry.t;
  get_entries_by_date : store -> string -> list Entry.t;
  search_entries : store -> string -> list Entry.t;
  list_entries : store -> list Entry.t;
  update_entry : store -> string -> Draft.t -> string -> result (bool * store);
  delete_entry : store -> string -> bool * store;
  export_all : store -> list Entry.t
}.

(** ** The relational backend *)

Module SQLiteStorage.

Definition store : Type := list Row.t.

(** The table right after [_migrate] on a new database. *)
Definition empty : store := [].

Definition has_id (s : store) (entry_id : string) : bool :=
  existsb (fun r => Row.id r =? entry_id) s.

Definition add_entry (s : store) (entry : Draft.t) (uuid now : string)
  : result (string * store) :=
  let entry_id := get_default (Draft.id entry) uuid in
  match Draft.date entry with
  | None => Raise (KeyError "date")
  | Some date =>
      let row :=
        Row.mk entry_id date
               (get_default (Draft.title entry) "")
               (get_default (Draft.body entry) "")
               (get_default (Draft.mood entry) "")
               (Text.join (get_default (Draft.tags entry) []))
               now now in
      if has_id s entry_id then Raise IntegrityError
      else Ok (entry_id, (s ++ [row])%list)
  end.

Definition _row_to_entry (row : Row.t) : Entry.t :=
  Entry.mk (Row.id row) (Row.date row) (Row.title row) (Row.body row)
           (Row.mood row)
           (if Row.tags row =? "" then [] else Text.split (Row.tags row))
           (Row.created_at row) (Row.updated_at row).

Definition get_entry (s : store) (entry_id : string) : option Entry.t :=
  option_map _row_to_entry (find (fun r => Row.id r =? entry_id) s).

Definition get_entries_by_date (s : store) (date_str : string) : list Entry.t :=
  map _row_to_entry
      (sorted_desc (fun a b => Row.created_at a <? Row.created_at b)
                   (filter (fun r => Row.date r =? date_str) s)).

Definition search_entries (s : store) (keyword : string) : list Entry.t :=
  let like := "%" ++ keyword ++ "%" in
  map _row_to_entry
      (sorted_desc (fun a b => Row.date a <? Row.date b)
                   (filter (fun r => Text.like like (Row.title r)
                                     || Text.like like (Row.body r)
                                     || Text.like like (Row.tags r)) s)).

Definition list_entries (s : store) : list Entry.t :=
  map _row_to_entry
      (sorted_desc (fun a b => pair_ltb (Row.date a, Row.created_at a)
                                        (Row.date b, Row.created_at b)) s).

Definition update_entry (s : store) (entry_id : string) (updated : Draft.t)
           (now : string) : result (bool * store) :=
  match Draft.date updated with
  | None => Raise (KeyError "date")
  | Some date =>
      let set (r : Row.t) :=
        Row.mk (Row.id r) date
               (get_default (Draft.title updated) "")
               (get_default (Draft.body updated) "")
               (get_default (Draft.mood updated) "")
               (Text.join (get_default (Draft.tags updated) []))
               (Row.created_at r) now in
      let rowcount := length (filter (fun r => Row.id r =? entry_id) s) in
      Ok (Nat.ltb 0 rowcount,
          map (fun r => if Row.id r =? entry_id then set r else r) s)
  end.

Definition delete_entry (s : store) (entry_id : string) : bool * store :=
  let rowcount := length (filter (fun r => Row.id r =? entry_id) s) in
  (Nat.ltb 0 rowcount, filter (fun r => negb (Row.id r =? entry_id)) s).

Definition export_all (s : store) : list Entry.t := list_entries s.

End SQLiteStorage.

(** ** The document backend *)

Module JSONStorage.

Definition store : Type := list Entry.t.

(** The document [{"entries": []}] written by [__init__]. *)
Definition empty : store := [].

Definition has_id (s : store) (entry_id : string) : bool :=
  existsb (fun e => Entry.id e =? entry_id) s.

Definition add_entry (s : store) (entry : Draft.t) (uuid now : string)
  : result (string * store) :=
  let entry_id := get_default (Draft.id entry) uuid in
  match Draft.date entry with
  | None => Raise (KeyError "date")
  | Some date =>
      let stored :=
        Entry.mk entry_id date
                 (get_default (Draft.title entry) "")
                 (get_default (Draft.body entry) "")
                 (get_default (Draft.mood entry) "")
                 (get_default (Draft.tags entry) [])
                 now now in
      Ok (entry_id, (s ++ [stored])%list)
  end.

Definition get_entry (s : store) (entry_id : string) : option Entry.t :=
  find (fun e => Entry.id e =? entry_id) s.

Definition get_entries_by_date (s : store) (date_str : string) : list Entry.t :=
  filter (fun e => Entry.date e =? date_str) s.

(** The condition of the loop of [search_entries]. *)
Definition matches (keyword_lower : string) (e : Entry.t) : bool :=
  Text.contains keyword_lower (Text.lower (Entry.title e))
  || Text.contains keyword_lower (Text.lower (Entry.body e))
  || existsb (fun t => Text.contains keyword_lower (Text.lower t)) (Entry.tags e).

Definition search_entries (s : store) (keyword : string) : list Entry.t :=
  let keyword_lower := Text.lower keyword in
  let res := filter (matches keyword_lower) s in
  sorted_desc (fun a b => Entry.date a <? Entry.date b) res.

Definition list_entries (s : store) : list Entry.t :=
  sorted_desc (fun a b => pair_ltb (Entry.date a, Entry.created_at a)
                                   (Entry.date b, Entry.created_at b)) s.

(** The loop of [update_entry]: [Ok None] when it runs to its end. *)
Fixpoint update_loop (entries : list Entry.t) (entry_id : string)
         (updated : Draft.t) (now : string) : result (option (list Entry.t)) :=
  match entries with
  | [] => Ok None
  | e :: rest =>
      if Entry.id e =? entry_id then
        match Draft.date updated with
        | None => Raise (KeyError "date")
        | Some date =>
            Ok (Some (Entry.mk (Entry.id e) date
                               (get_default (Draft.title updated) "")
                               (get_default (Draft.body updated) "")
                               (get_default (Draft.mood updated) "")
                               (get_default (Draft.tags updated) [])
                               (Entry.created_at e) now
                      :: rest))
        end
      else
        match update_loop rest entry_id updated now with
        | Ok (Some rest') => Ok (Some (e :: rest'))
        | Ok None => Ok None
        | Raise x => Raise x
        end
  end.

Definition update_entry (s : store) (entry_id : string) (updated : Draft.t)
           (now : string) : result (bool * store) :=
  match update_loop s entry_id updated now with
  | Ok (Some s') => Ok (true, s')
  | Ok None => Ok (false, s)
  | Raise x => Raise x
  end.

Definition delete_entry (s : store) (entry_id : string) : bool * store :=
  let new_entries := filter (fun e => negb (Entry.id e =? entry_id)) s in
  if Nat.eqb (length new_entries) (length s) then (false, s)
  else (true, new_entries).

Definition export_all (s : store) : list Entry.t := list_entries s.

End JSONStorage.

#[export] Instance sqlite_storage : StorageInterface SQLiteStorage.store := {
  add_entry := SQLiteStorage.add_entry;
  get_entry := SQLiteStorage.get_entry;
  get_entries_by_date := SQLiteStorage.get_entries_by_date;
  search_entries := SQLiteStorage.search_entries;
  list_entries := SQLiteStorage.list_entries;
  update_entry := SQLiteStorage.update_entry;
  delete_entry := SQLiteStorage.delete_entry;
  export_all := SQLiteStorage.export_all
}.

#[export] Instance json_storage : StorageInterface JSONStorage.store := {
  add_entry := JSONStorage.add_entry;
  get_entry := JSONStorage.get_entry;
  get_entries_by_date := JSONStorage.get_entries_by_date;
  search_entries := JSONStorage.search_entries;
  list_entries := JSONStorage.list_entries;
  update_entry := JSONStorage.update_entry;
  delete_entry := JSONStorage.delete_entry;
  export_all := JSONStorage.export_all
}.

(** ** Sequences of storage operations *)

(** One call of a mutating operation, with the id [uuid4()] would return and
    the timestamp [utcnow().isoformat()] would return during the call. *)
Inductive op : Type :=
| Add (entry : Draft.t) (uuid now : string)
| Update (entry_id : string) (updated : Draft.t) (now : string)
| Delete (entry_id : string).

(** One operation on a backend.  A call that raises leaves the store as it
    was: the relational backend has not run the statement or has rolled it
    back, the document backend has not reached [_write]. *)
Definition step {store : Type} {backend : StorageInterface store}
           (s : store) (o : op) : store :=
  match o with
  | Add entry uuid now =>
      match add_entry s entry uuid now with
      | Ok (_, s') => s'
      | Raise _ => s
      end
  | Update entry_id updated now =>
      match update_entry s entry_id updated now with
      | Ok (_, s') => s'
      | Raise _ => s
      end
  | Delete entry_id => snd (delete_entry s entry_id)
  end.

Definition sqlite_step (s : SQLiteStorage.store) (o : op) : SQLiteStorage.store :=
  step s o.

Definition json_step (s : JSONStorage.store) (o : op) : JSONStorage.store :=
  step s o.

Definition sqlite_run (ops : list op) : SQLiteStorage.store :=
  fold_left sqlite_step ops SQLiteStorage.empty.

Definition json_run (ops : list op) : JSONStorage.store :=
  fold_left json_step ops JSONStorage.empty.

(** The timestamp an operation reads, if it reads one. *)
Definition op_now (o : op) : option string :=
  match o with
  | Add _ _ now => Some now
  | Update _ _ now => Some now
  | Delete _ => None
  end.

(** The clock never runs backwards over a sequence of operations: each
    timestamp read is at least [t], the last one read before. *)
Fixpoint clock_ok (t : string) (ops : list op) : bool :=
  match ops with
  | [] => true
  | o :: ops' =>
      match op_now o with
      | Some now => (t <=? now) && clock_ok now ops'
      | None => clock_ok t ops'
      end
  end.

(** The tag lists the comma-joined column gives back unchanged: no tag holds
    a comma, and the list is not the single empty tag. *)
Definition tags_ok (tags : list string) : bool :=
  forallb Text.no_comma tags
  && negb (match tags with [t] => t =? "" | _ => false end).

(** ** The contract of the operations *)

(** What a sequence of operations must satisfy for the two backends to stay
    in step: every add stores under an id that is not stored yet, and every
    tag list handed to add or update survives the comma-joined column. *)
Definition op_ok (s : JSONStorage.store) (o : op) : bool :=
  match o with
  | Add entry uuid _ =>
      negb (JSONStorage.has_id s (get_default (Draft.id entry) uuid))
      && tags_ok (get_default (Draft.tags entry) [])
  | Update _ updated _ => tags_ok (get_default (Draft.tags updated) [])
  | Delete _ => true
  end.

Fixpoint replay_ok (s : JSONStorage.store) (ops : list op) : bool :=
  match ops with
  | [] => true
  | o :: ops' => op_ok s o && replay_ok (json_step s o) ops'
  end.

(** Newest first: no entry is followed by one created later. *)
Definition newest_first (a b : Entry.t) : Prop :=
  (Entry.created_at b <=? Entry.created_at a) = true.

(** Plain text: ASCII, and without a NUL character. *)
Definition plain (s : string) : bool := Text.is_ascii s && Text.no_nul s.

(** The title, the body and the tags column of a row are plain text. *)
Definition plain_row (r : Row.t) : bool :=
  plain (Row.title r) && plain (Row.body r) && plain (Row.tags r).

(** The title, the body and the tags of an entry are ASCII text. *)
Definition ascii_entry (e : Entry.t) : bool :=
  Text.is_ascii (Entry.title e) && Text.is_ascii (Entry.body e)
  && forallb Text.is_ascii (Entry.tags e).

(** The longest pattern SQLite's [LIKE] accepts, in bytes. *)
Definition like_pattern_limit : nat := 50 * 1000.

(** The pattern [search_entries] builds from a keyword is within the
    limit. *)
Definition within_like_limit (keyword : string) : bool :=
  Nat.leb (String.length ("%" ++ keyword ++ "%")) like_pattern_limit.

(** The search contract: [kw] occurs in [s] when case is ignored. *)
Definition ci_substring (kw s : string) : bool :=
  Text.contains (Text.lower kw) (Text.lower s).

(** The search contract: [kw] occurs in the title, in the body or in one of
    the tags of the entry. *)
Definition search_spec (kw : string) (e : Entry.t) : bool :=
  ci_substring kw (Entry.title e)
  || ci_substring kw (Entry.body e)
  || existsb (ci_substring kw) (Entry.tags e).

(** Ordered by date, descending: no entry is followed by one of a later
    date. *)
Definition date_desc (a b : Entry.t) : Prop :=
  (Entry.date b <=? Entry.date a) = true.

(** The entry an add of [entry] must leave in the store: the fields of the
    draft, empty where the draft has none, under [entry_id], with both
    timestamps equal to [now]. *)
Definition drafted (entry : Draft.t) (entry_id date now : string) : Entry.t :=
  Entry.mk entry_id date
           (get_default (Draft.title entry) "")
           (get_default (Draft.body entry) "")
           (get_default (Draft.mood entry) "")
           (get_default (Draft.tags entry) [])
           now now.

(** The entry an update of [e] must leave in the store: the date, title,
    body, mood and tags of [updated], empty where it has none; the id and
    [created_at] of [e]; [updated_at] set to [now]. *)
Definition rewritten (e : Entry.t) (date : string) (updated : Draft.t)
           (now : string) : Entry.t :=
  Entry.mk (Entry.id e) date
           (get_default (Draft.title updated) "")
           (get_default (Draft.body updated) "")
           (get_default (Draft.mood updated) "")
           (get_default (Draft.tags updated) [])
           (Entry.created_at e) now.

(** The last timestamp read when [ops] have run, [t] if none was. *)
Definition last_now (t : string) (ops : list op) : string :=
  fold_left (fun t o => get_default (op_now o) t) ops t.

(** An entry was created no later than it was last written, and last
    written no later than [t]. *)
Definition stamped (t created_at updated_at : string) : Prop :=
  (created_at <=? updated_at) = true /\ (updated_at <=? t) = true.

Definition json_stamped (t : string) (s : JSONStorage.store) : Prop :=
  Forall (fun e => stamped t (Entry.created_at e) (Entry.updated_at e)) s.

Definition sqlite_stamped (t : string) (s : SQLiteStorage.store) : Prop :=
  Forall (fun r => stamped t (Row.created_at r) (Row.updated_at r)) s.

(** ** Scenarios *)

(** Two entries written on the same day, the second twelve hours after the
    first. *)
Definition same_day_drafts : list op :=
  [ Add (Draft.mk None (Some "2024-01-01") (Some "morning") None None None)
        "id-1" "2024-01-01T08:00:00";
    Add (Draft.mk None (Some "2024-01-01") (Some "evening") None None None)
        "id-2" "2024-01-01T20:00:00" ].

(** The first example of the search contract: two entries that both hold
    the keyword [work], one in a tag and one in the body. *)
Definition work_drafts : list op :=
  [ Add (Draft.mk None (Some "2024-03-01") (Some "Sunny day") None None
                  (Some ["work"]))
        "id-1" "2024-03-01T09:00:00";
    Add (Draft.mk None (Some "2024-03-02") (Some "Rainy") (Some "worked late")
                  None None)
        "id-2" "2024-03-02T09:00:00" ].

(** An entry with the two tags [a] and [b]. *)
Definition two_tags : list op :=
  [ Add (Draft.mk None (Some "2024-03-01") (Some "t") None None
                  (Some ["a"; "b"]))
        "id-1" "2024-03-01T09:00:00" ].

(** The scenario of the contract: add an entry, add a second one, rewrite
    the first, delete the second. *)
Definition scenario : list op :=
  [ Add (Draft.mk None (Some "2024-01-01") (Some "First") None (Some "happy")
                  (Some ["x"; "y"]))
        "A" "2024-01-01T10:00:00";
    Add (Draft.mk None (Some "2024-01-01") (Some "Second") (Some "text") None None)
        "B" "2024-01-01T11:00:00";
    Update "A"
           (Draft.mk None (Some "2024-01-02") (Some "First") None (Some "sad")
                     (Some ["x"]))
           "2024-01-01T12:00:00";
    Delete "B" ].

(** An add, and an update of the same entry read one second earlier on a
    clock that was set back in between. *)
Definition clock_set_back : list op :=
  [ Add (Draft.mk None (Some "2024-01-01") (Some "First") None None None)
        "A" "2024-01-01T10:00:00";
    Update "A" (Draft.mk None (Some "2024-01-01") (Some "First") None None None)
           "2024-01-01T09:59:59" ].

(** The two adds of the scenario. *)
Definition scenario_adds : list op := firstn 2 scenario.

(** One add of an entry whose only tag holds a comma. *)
Definition comma_tag : list op :=
  [ Add (Draft.mk None (Some "2024-01-01") (Some "First") None None
                  (Some ["a,b"]))
        "A" "2024-01-01T10:00:00" ].

(** The first draft of the scenario. *)
Definition first_draft : Draft.t :=
  Draft.mk None (Some "2024-01-01") (Some "First") None (Some "happy")
           (Some ["x"; "y"]).

(** A draft that carries the id of an entry of the store. *)
Definition first_draft_again : Draft.t :=
  Draft.mk (Some "A") (Some "2024-02-01") (Some "Again") None None None.

(** The fields of the update of the scenario. *)
Definition second_thoughts : Draft.t :=
  Draft.mk None (Some "2024-01-02") (Some "First") None (Some "sad")
           (Some ["x"]).

(** Fields whose only tag holds a comma. *)
Definition comma_fields : Draft.t :=
  Draft.mk None (Some "2024-01-02") (Some "First") None None (Some ["a,b"]).

(** ** Further contract of the storage operations *)

(** The order of [list_entries]: an entry is followed by one of an earlier
    date, or of the same date and created no later. *)
Definition listed_order (a b : Entry.t) : Prop :=
  (Entry.date b <? Entry.date a)
  || ((Entry.date b =? Entry.date a)
      && (Entry.created_at b <=? Entry.created_at a)) = true.

(** Oldest first: no entry is followed by one created earlier. *)
Definition oldest_first (a b : Entry.t) : Prop :=
  (Entry.created_at a <=? Entry.created_at b) = true.

(** The id an operation acts on: for an add, the id the entry is stored
    under. *)
Definition op_id (o : op) : string :=
  match o with
  | Add entry uuid _ => get_default (Draft.id entry) uuid
  | Update entry_id _ _ => entry_id
  | Delete entry_id => entry_id
  end.

(** ** Helper functions *)

(** What the application code raises or lets through: the end of the input,
    a [ValueError] with its message, the [FileNotFoundError] of a path that
    cannot exist, or an exception of the storage backend. *)
Inductive error : Type :=
| EOFError
| ValueError (msg : string)
| FileNotFoundError
| StorageError (e : exn).

Inductive attempt (A : Type) : Type :=
| Done (a : A)
| Failed (e : error).
Arguments Done {A} a.
Arguments Failed {A} e.

Module Helper.

(** The line break ["\n"]. *)
Definition nl : string := String "010"%char EmptyString.

(** [c.isalnum()] on ASCII text: a digit or a letter.  On other text
    [str.isalnum] accepts more; what is proved of the characters kept is
    stated for ASCII text. *)
Definition isalnum (c : ascii) : bool :=
  (Ascii.leb "0" c && Ascii.leb c "9")
  || (Ascii.leb "A" c && Ascii.leb c "Z")
  || (Ascii.leb "a" c && Ascii.leb c "z").

(** [c.isspace()] on ASCII text: the characters 9 to 13, 28 to 31 and the
    space; these are what [strip] and [rstrip] remove. *)
Definition isspace (c : ascii) : bool :=
  let n := nat_of_ascii c in
  (Nat.leb 9 n && Nat.leb n 13) || (Nat.leb 28 n && Nat.leb n 32).

(** [s.rstrip()] *)
Fixpoint rstrip (s : string) : string :=
  match s with
  | EmptyString => EmptyString
  | String c s' =>
      match rstrip s' with
      | EmptyString => if isspace c then EmptyString else String c EmptyString
      | rest => String c rest
      end
  end.

(** [s.lstrip()] *)
Fixpoint lstrip (s : string) : string :=
  match s with
  | EmptyString => EmptyString
  | String c s' => if isspace c then lstrip s' else s
  end.

(** [s.strip()] *)
Definition strip (s : string) : string := rstrip (lstrip s).

(** ["".join(c for c in s if keep(c))] *)
Fixpoint keep_chars (keep : ascii -> bool) (s : string) : string :=
  match s with
  | EmptyString => EmptyString
  | String c s' =>
      if keep c then String c (keep_chars keep s') else keep_chars keep s'
  end.

(** The test of [filename_safe]: [c.isalnum() or c in (" ", "-", "_")]. *)
Definition safe_char (c : ascii) : bool :=
  isalnum c || (c =? " ")%char || (c =? "-")%char || (c =? "_")%char.

Definition filename_safe (s : string) : string :=
  rstrip (keep_chars safe_char s).

(** [s.endswith(suffix)] *)
Fixpoint endswith (s suffix : string) : bool :=
  (s =? suffix)
  || match s with
     | EmptyString => false
     | String _ s' => endswith s' suffix
     end.

(** The loop of [prompt_multiline] on the lines still to be read: the lines
    before the first one that is a single dot once stripped, and the lines
    left after it; [None] when the input ends first ([input()] raises
    [EOFError]). *)
Fixpoint read_body (stdin : list string) (lines : list string)
  : option (list string * list string) :=
  match stdin with
  | [] => None
  | line :: rest =>
      if strip line =? "." then Some (lines, rest)
      else read_body rest (lines ++ [line])%list
  end.

(** [prompt_multiline], without the prompt it prints first: the body typed
    and the input left. *)
Definition prompt_multiline (stdin : list string) : attempt (string * list string) :=
  match read_body stdin [] with
  | None => Failed EOFError
  | Some (lines, rest) => Done (String.concat nl lines, rest)
  end.

End Helper.

(** ** Export helpers *)

Module Exporter.
Import Helper.

(** The files written so far, latest first, each with its path and its
    content.  Opening a path for writing is taken to succeed, and
    directories are not kept track of beyond the failure of [makedirs]
    below. *)
Definition files : Type := list (string * string).

(** [open(path, "w").write(content)] *)
Definition write_file (fs : files) (path content : string) : files :=
  (path, content) :: fs.

(** What is read at [path]: the content written there last. *)
Definition read_file (fs : files) (path : string) : option string :=
  option_map snd (find (fun f => fst f =? path) fs).

(** The four header lines of an exported entry. *)
Definition header (entry : Entry.t) : string :=
  (Entry.title entry ++ " - " ++ Entry.date entry ++ nl)
  ++ ("Mood: " ++ Entry.mood entry ++ nl)
  ++ ("Tags: " ++ String.concat ", " (Entry.tags entry) ++ nl)
  ++ nl.

Definition export_entry_to_file (fs : files) (entry : Entry.t) (path fmt : string)
  : attempt (string * files) :=
  let ext := Text.lower fmt in
  if negb ((ext =? "txt") || (ext =? "md"))
  then Failed (ValueError "Unsupported export format")
  else
    let path := if endswith (Text.lower path) ("." ++ ext)
                then path
                else path ++ "." ++ ext in
    let content := header entry ++ Entry.body entry in
    Done (path, write_file fs path content).

(** [os.path.join(a, b)] of POSIX. *)
Definition path_join (a b : string) : string :=
  if String.prefix "/" b then b
  else if (a =? "") || endswith a "/" then a ++ b
  else a ++ "/" ++ b.

(** The path [export_all_to_folder] hands to [export_entry_to_file] for an
    entry. *)
Definition entry_path (folder : string) (e : Entry.t) : string :=
  let safe_title :=
    filename_safe (if Entry.title e =? "" then Entry.id e else Entry.title e) in
  let name :=
    if safe_title =? "" then Entry.id e
    else Entry.date e ++ "-" ++ safe_title in
  path_join folder name.

(** The loop of [export_all_to_folder]. *)
Fixpoint export_loop (fs : files) (entries : list Entry.t) (folder fmt : string)
         (created_files : list string) : attempt (list string * files) :=
  match entries with
  | [] => Done (created_files, fs)
  | e :: rest =>
      match export_entry_to_file fs e (entry_path folder e) fmt with
      | Failed x => Failed x
      | Done (path, fs') =>
          export_loop fs' rest folder fmt (created_files ++ [path])%list
      end
  end.

(** [os.makedirs(folder, exist_ok=True)]: creating the folder is taken to
    succeed, except under the empty name, which no directory can have. *)
Definition makedirs (folder : string) : attempt unit :=
  if folder =? "" then Failed FileNotFoundError else Done tt.

Definition export_all_to_folder (fs : files) (entries : list Entry.t)
           (folder fmt : string) : attempt (list string * files) :=
  match makedirs folder with
  | Failed x => Failed x
  | Done _ => export_loop fs entries folder fmt []
  end.

(** What is left of a text after its first line. *)
Fixpoint skip_line (s : string) : string :=
  match s with
  | EmptyString => EmptyString
  | String c s' => if (c =? "010")%char then s' else skip_line s'
  end.

(** What is left of a text after its first [n] lines. *)
Definition skip_lines (n : nat) (s : string) : string :=
  Nat.iter n skip_line s.

(** A text holds no line break. *)
Fixpoint one_line (s : string) : bool :=
  match s with
  | EmptyString => true
  | String c s' => negb (c =? "010")%char && one_line s'
  end.

(** A text holds no slash. *)
Fixpoint no_slash (s : string) : bool :=
  match s with
  | EmptyString => true
  | String c s' => negb (c =? "/")%char && no_slash s'
  end.

End Exporter.

(** ** Contract of the export helpers *)

(** The path [export_entry_to_file] writes to and returns, for a format it
    supports: [path] itself when it ends with the extension, case ignored,
    else [path] with the extension added. *)
Definition with_extension (path fmt : string) : string :=
  if Helper.endswith (Text.lower path) ("." ++ Text.lower fmt)
  then path
  else path ++ "." ++ Text.lower fmt.

(** The format is one of the two supported, case ignored. *)
Definition supported (fmt : string) : bool :=
  (Text.lower fmt =? "txt") || (Text.lower fmt =? "md").

(** The file [export_all_to_folder] writes for an entry: its path and its
    content. *)
Definition exported_file (folder fmt : string) (e : Entry.t) : string * string :=
  (with_extension (Exporter.entry_path folder e) fmt,
   Exporter.header e ++ Entry.body e).

(** The folder as a prefix of the paths below it: [os.path.join] puts a
    slash after a folder name that does not end with one, and none after the
    empty name. *)
Definition folder_prefix (folder : string) : string :=
  if (folder =? "") || Helper.endswith folder "/" then folder else folder ++ "/".

(** ** Scenarios of the export helpers *)

(** An entry whose body has several lines, one of them like a header. *)
Definition letter : Entry.t :=
  Entry.mk "A" "2024-01-01" "First" ("Mood: none" ++ Helper.nl ++ "second line")
           "happy" ["x"; "y"] "2024-01-01T10:00:00" "2024-01-01T10:00:00".

(** Two entries of one date and title. *)
Definition twins : list Entry.t :=
  [ Entry.mk "A" "2024-01-01" "First" "one" "" [] "t1" "t1";
    Entry.mk "B" "2024-01-01" "First" "two" "" [] "t2" "t2" ].

(** ** The interactive layer *)

(** What a method of [DiaryApp] works on: the lines still to be read from
    the terminal, what has been written to it so far, oldest first, and the
    state of the storage backend. *)
Record world (store : Type) : Type := World {
  stdin : list string;
  stdout : list string;
  storage : store
}.
Arguments World {store} stdin stdout storage.
Arguments stdin {store} w.
Arguments stdout {store} w.
Arguments storage {store} w.

(** A computation of the interactive layer: it returns or raises, and leaves
    a world behind either way. *)
Definition action (store A : Type) : Type :=
  world store -> attempt A * world store.

Definition ret {store A : Type} (a : A) : action store A :=
  fun w => (Done a, w).

Definition bind {store A B : Type} (m : action store A) (k : A -> action store B)
  : action store B :=
  fun w =>
    match m w with
    | (Done a, w') => k a w'
    | (Failed e, w') => (Failed e, w')
    end.

Notation "x <- m ;; k" := (bind m (fun x => k))
  (at level 61, m at next level, right associativity).
Notation "m ;;; k" := (bind m (fun _ => k))
  (at level 61, right associativity).

(** [print(text)]: the text and a line break. *)
Definition print {store : Type} (text : string) : action store unit :=
  fun w => (Done tt, World (stdin w) (stdout w ++ [(text ++ Helper.nl)%string])%list (storage w)).

(** [input(prompt)]: writes the prompt, then reads a line; [EOFError] when
    no line is left. *)
Definition input {store : Type} (prompt : string) : action store string :=
  fun w =>
    match stdin w with
    | [] => (Failed EOFError, World [] (stdout w ++ [prompt])%list (storage w))
    | line :: rest => (Done line, World rest (stdout w ++ [prompt])%list (storage w))
    end.

(** [prompt_multiline(prompt_msg)] on the terminal. *)
Definition prompt_multiline {store : Type} (prompt_msg : string)
  : action store string :=
  print prompt_msg ;;;
  fun w =>
    match Helper.prompt_multiline (stdin w) with
    | Done (body, rest) => (Done body, World rest (stdout w) (storage w))
    | Failed e => (Failed e, World [] (stdout w) (storage w))
    end.

(** The tags typed on one line: [[t.strip() for t in tags_in.split(",") if
    t.strip()]]. *)
Definition typed_tags (tags_in : string) : list string :=
  filter (fun t => negb (t =? ""))
         (map Helper.strip (Text.split tags_in)).

Module DiaryApp.

Section Methods.

Context {store : Type} {backend : StorageInterface store}.

(** [datetime.strptime(s, DATE_FMT).strftime(DATE_FMT)], [None] when it
    raises [ValueError]. *)
Variable reformat : string -> option string.

Definition date_error : string := "Date should be in %Y-%m-%d format".

Definition parse_date (input_str : string) : attempt string :=
  match reformat input_str with
  | Some d => Done d
  | None => Failed (ValueError date_error)
  end.

(** The default prompt of [prompt_multiline]. *)
Definition body_prompt : string :=
  "Enter body. End with a single line containing only '.'".

(** ["-" * 40] *)
Definition rule : string := "----------------------------------------".

Definition _print_entry (e : Entry.t) : action store unit :=
  print rule ;;;
  print ("ID: " ++ Entry.id e) ;;;
  print ("Date: " ++ Entry.date e) ;;;
  print ("Title: " ++ Entry.title e) ;;;
  print ("Mood: " ++ Entry.mood e) ;;;
  print ("Tags: " ++ String.concat ", " (Entry.tags e)) ;;;
  print "-" ;;;
  print (Entry.body e) ;;;
  print rule.

(** [for e in entries: self._print_entry(e)] *)
Fixpoint print_entries (entries : list Entry.t) : action store unit :=
  match entries with
  | [] => ret tt
  | e :: rest => _print_entry e ;;; print_entries rest
  end.

(** [self.storage.add_entry(entry)] with what [uuid4()] and [utcnow()]
    return during the call. *)
Definition storage_add (entry : Draft.t) (uuid now : string) : action store string :=
  fun w =>
    match add_entry (storage w) entry uuid now with
    | Ok (entry_id, s') => (Done entry_id, World (stdin w) (stdout w) s')
    | Raise e => (Failed (StorageError e), w)
    end.

Definition storage_update (entry_id : string) (updated : Draft.t) (now : string)
  : action store bool :=
  fun w =>
    match update_entry (storage w) entry_id updated now with
    | Ok (ok, s') => (Done ok, World (stdin w) (stdout w) s')
    | Raise e => (Failed (StorageError e), w)
    end.

Definition storage_delete (entry_id : string) : action store bool :=
  fun w =>
    let (ok, s') := delete_entry (storage w) entry_id in
    (Done ok, World (stdin w) (stdout w) s').

(** A query of the backend. *)
Definition storage_read {A : Type} (query : store -> A) : action store A :=
  fun w => (Done (query (storage w)), w).

(** [add_new_entry]; [today] is [datetime.utcnow().strftime(DATE_FMT)]. *)
Definition add_new_entry (today uuid now : string) : action store unit :=
  line <- input "Date (%Y-%m-%d) [default today]: " ;;
  let date_in := Helper.strip line in
  match (if date_in =? "" then Done today else parse_date date_in) with
  | Failed _ => print date_error
  | Done date_str =>
      line <- input "Title: " ;;
      let title := Helper.strip line in
      print "Write your entry. End with a single line containing only '.'" ;;;
      body <- prompt_multiline body_prompt ;;
      line <- input "Mood (optional): " ;;
      let mood := Helper.strip line in
      line <- input "Tags (comma separated, optional): " ;;
      let tags_in := Helper.strip line in
      let tags := if tags_in =? "" then [] else typed_tags tags_in in
      let entry := Draft.mk None (Some date_str) (Some title) (Some body)
                            (Some mood) (Some tags) in
      entry_id <- storage_add entry uuid now ;;
      print ("Saved entry " ++ entry_id)
  end.

Definition read_by_date : action store unit :=
  date_in <- input "Enter date (%Y-%m-%d): " ;;
  match parse_date date_in with
  | Failed _ => print date_error
  | Done date_str =>
      entries <- storage_read (fun s => get_entries_by_date s date_str) ;;
      match entries with
      | [] => print "No entries for this date."
      | _ :: _ => print_entries entries
      end
  end.

Definition search_entries : action store unit :=
  line <- input "Keyword to search: " ;;
  let keyword := Helper.strip line in
  if keyword =? "" then print "Empty keyword"
  else
    results <- storage_read (fun s => search_entries s keyword) ;;
    match results with
    | [] => print "No results found"
    | _ :: _ => print_entries results
    end.

Definition edit_entry (now : string) : action store unit :=
  line <- input "Enter entry ID to edit: " ;;
  let entry_id := Helper.strip line in
  found <- storage_read (fun s => get_entry s entry_id) ;;
  match found with
  | None => print "Entry not found"
  | Some e =>
      print "Leave blank to keep existing value" ;;;
      line <- input ("Date (%Y-%m-%d) [" ++ Entry.date e ++ "]: ") ;;
      let date_in := Helper.strip line in
      match (if date_in =? "" then Done (Entry.date e) else parse_date date_in) with
      | Failed _ => print date_error
      | Done date_str =>
          line <- input ("Title [" ++ Entry.title e ++ "]: ") ;;
          let title := if Helper.strip line =? "" then Entry.title e
                       else Helper.strip line in
          print "Enter body. End with a single line containing only '.' (leave blank to keep current)" ;;;
          typed <- prompt_multiline body_prompt ;;
          let body := if typed =? "" then Entry.body e else typed in
          line <- input ("Mood [" ++ Entry.mood e ++ "]: ") ;;
          let mood := if Helper.strip line =? "" then Entry.mood e
                      else Helper.strip line in
          line <- input ("Tags comma-separated ["
                         ++ String.concat "," (Entry.tags e) ++ "]: ") ;;
          let tags_in := Helper.strip line in
          let tags := if tags_in =? "" then Entry.tags e else typed_tags tags_in in
          let updated := Draft.mk None (Some date_str) (Some title) (Some body)
                                  (Some mood) (Some tags) in
          ok <- storage_update entry_id updated now ;;
          print (if ok : bool then "Updated" else "Failed to update")
      end
  end.

Definition delete_entry : action store unit :=
  line <- input "Enter entry ID to delete: " ;;
  let entry_id := Helper.strip line in
  confirm <- input "Are you sure? Type 'yes' to confirm: " ;;
  if negb (Text.lower confirm =? "yes") then print "Canceled"
  else
    ok <- storage_delete entry_id ;;
    print (if ok : bool then "Deleted" else "Not found").

End Methods.

End DiaryApp.

(** ** Contract of the interactive layer *)

(** [typed or old] on strings: what was typed, or the old value when nothing
    was. *)
Definition or_else (typed old : string) : string :=
  if typed =? "" then old else typed.

(** The entry [edit_entry] aims at: for each field what was typed, stripped,
    or the value of [e] where the answer was blank; the id and [created_at]
    of [e]; [updated_at] set to [now]. *)
Definition edited (e : Entry.t) (date_str title_in body_in mood_in tags_in now : string)
  : Entry.t :=
  Entry.mk (Entry.id e) date_str
           (or_else (Helper.strip title_in) (Entry.title e))
           (or_else body_in (Entry.body e))
           (or_else (Helper.strip mood_in) (Entry.mood e))
           (if Helper.strip tags_in =? "" then Entry.tags e
            else typed_tags (Helper.strip tags_in))
           (Entry.created_at e) now.

(** No line is a single dot once stripped. *)
Definition no_dot_line (lines : list string) : bool :=
  forallb (fun l => negb (Helper.strip l =? ".")) lines.

(** ** Mood statistics *)

Module Mood.

(** A [dict] from mood labels to counts, its keys in insertion order. *)
Definition counts : Type := list (string * nat).

(** [d.get(key, 0)] *)
Definition dict_get (key : string) (d : counts) : nat :=
  match find (fun kc => fst kc =? key) d with
  | Some (_, c) => c
  | None => 0
  end.

(** [d[key] = value]: in place when the key is there, else at the end. *)
Fixpoint dict_set (key : string) (value : nat) (d : counts) : counts :=
  match d with
  | [] => [(key, value)]
  | (k, c) :: rest =>
      if k =? key then (k, value) :: rest else (k, c) :: dict_set key value rest
  end.

(** The label of an entry: [(e.get("mood") or "(none)").strip()]. *)
Definition label (e : Entry.t) : string :=
  Helper.strip (or_else (Entry.mood e) "(none)").

(** The loop of [mood_stats] that fills [mood_count]. *)
Definition mood_count (entries : list Entry.t) : counts :=
  fold_left (fun d e => dict_set (label e) (dict_get (label e) d + 1) d)
            entries [].

(** An item comes after another in the order of the key [(-count, label)]:
    it has the smaller count, or the same count and the greater label. *)
Definition after (x y : string * nat) : bool :=
  Nat.ltb (snd x) (snd y) || (Nat.eqb (snd x) (snd y) && (fst y <? fst x)).

(** [sorted(mood_count.items(), key=lambda x: (-x[1], x[0]))] *)
Definition ranked (d : counts) : counts := sorted_desc after d.

(** The order of the ranking: counts descending, and labels ascending among
    equal counts. *)
Definition ranking_order (x y : string * nat) : Prop :=
  snd y < snd x \/ (snd x = snd y /\ (fst x <=? fst y) = true).

End Mood.

(** ** Facts about strings as sort keys *)

Lemma ltb_irrefl (a : string) : (a <? a) = false.
Proof.
  unfold String.ltb.
  destruct (a ?= a) eqn:E; auto.
  pose proof (String.compare_antisym a a) as H.
  rewrite E in H. discriminate.
Qed.

Lemma ltb_asym (a b : string) : (a <? b) = true -> (b <? a) = false.
Proof.
  unfold String.ltb. rewrite (String.compare_antisym a b).
  destruct (b ?= a); simpl; auto; discriminate.
Qed.

Lemma ltb_false_leb (a b : string) : (a <? b) = false <-> (b <=? a) = true.
Proof.
  unfold String.ltb, String.leb. rewrite (String.compare_antisym a b).
  destruct (b ?= a); simpl; split; auto; discriminate.
Qed.

Lemma leb_refl (a : string) : (a <=? a) = true.
Proof. apply ltb_false_leb, ltb_irrefl. Qed.

Lemma compare_as_OT (a b : string) : (a ?= b) = String_as_OT.compare a b.
Proof.
  revert b. induction a as [|c a IH]; intros [|d b]; simpl; auto.
Qed.

Lemma ltb_lt (a b : string) : (a <? b) = true <-> String_as_OT.lt a b.
Proof.
  unfold String.ltb, String_as_OT.lt. rewrite compare_as_OT.
  destruct (String_as_OT.compare a b); split; auto; discriminate.
Qed.

Lemma leb_trans (a b c : string) :
  (a <=? b) = true -> (b <=? c) = true -> (a <=? c) = true.
Proof.
  intros Hab Hbc.
  apply ltb_false_leb. apply ltb_false_leb in Hab, Hbc.
  destruct (c <? a) eqn:Hca; auto.
  apply ltb_lt in Hca.
  destruct (String_as_OT.compare_spec a b) as [Heq|Hlt|Hgt].
  - change (a = b) in Heq. subst b. apply ltb_lt in Hca. congruence.
  - assert (String_as_OT.lt c b) as H
        by (eapply String_as_OT.lt_strorder; eauto).
    apply ltb_lt in H. congruence.
  - apply ltb_lt in Hgt. congruence.
Qed.

Lemma pair_ltb_asym (a b : string * string) :
  pair_ltb a b = true -> pair_ltb b a = false.
Proof.
  unfold pair_ltb. destruct a as [a1 a2], b as [b1 b2]. simpl.
  intros H. apply orb_true_iff in H. destruct H as [H|H].
  - rewrite (ltb_asym _ _ H).
    destruct (String.eqb_spec b1 a1) as [->|]; auto.
    rewrite ltb_irrefl in H. discriminate.
  - apply andb_true_iff in H. destruct H as [He Hl].
    apply String.eqb_eq in He. subst b1.
    rewrite ltb_irrefl, String.eqb_refl, (ltb_asym _ _ Hl). reflexivity.
Qed.

(** ** Facts about the descending sort *)

Section SortFacts.

Context {A : Type}.
Variable lt : A -> A -> bool.

Lemma insert_desc_perm (x : A) (l : list A) :
  Permutation (insert_desc lt x l) (x :: l).
Proof.
  induction l as [|y l IH]; simpl.
  - apply Permutation_refl.
  - destruct (lt x y).
    + eapply perm_trans; [apply perm_skip, IH | apply perm_swap].
    + apply Permutation_refl.
Qed.

Lemma sorted_desc_perm (l : list A) : Permutation (sorted_desc lt l) l.
Proof.
  induction l as [|x l IH]; simpl.
  - apply perm_nil.
  - eapply perm_trans; [apply insert_desc_perm | apply perm_skip, IH].
Qed.

Hypothesis lt_asym : forall a b, lt a b = true -> lt b a = false.

Lemma insert_desc_hdrel (a x : A) (l : list A) :
  desc lt a x -> HdRel (desc lt) a l -> HdRel (desc lt) a (insert_desc lt x l).
Proof.
  intros Hax Hl. destruct l as [|y l]; simpl.
  - constructor. exact Hax.
  - destruct (lt x y); constructor.
    + inversion Hl; assumption.
    + exact Hax.
Qed.

Lemma insert_desc_sorted (x : A) (l : list A) :
  Sorted (desc lt) l -> Sorted (desc lt) (insert_desc lt x l).
Proof.
  induction l as [|y l IH]; simpl; intros Hs.
  - repeat constructor.
  - inversion Hs as [|? ? Hs' Hhd]; subst.
    destruct (lt x y) eqn:E.
    + constructor; [apply IH, Hs'|].
      apply insert_desc_hdrel; [apply lt_asym, E | exact Hhd].
    + constructor; [exact Hs | constructor; exact E].
Qed.

Lemma sorted_desc_sorted (l : list A) : Sorted (desc lt) (sorted_desc lt l).
Proof.
  induction l as [|x l IH]; simpl.
  - constructor.
  - apply insert_desc_sorted, IH.
Qed.

End SortFacts.

Section SortStable.

Context {A : Type}.
Variable lt : A -> A -> bool.

(** Stability: a class [P] of elements none of which is below another keeps
    its order through the sort. *)
Variable P : A -> bool.
Hypothesis P_tied : forall a b, P a = true -> P b = true -> lt a b = false.

Lemma insert_desc_filter (x : A) (l : list A) :
  filter P (insert_desc lt x l) = filter P (x :: l).
Proof.
  induction l as [|y l IH]; simpl; auto.
  destruct (lt x y) eqn:E; simpl; auto.
  rewrite IH. simpl.
  destruct (P x) eqn:Px, (P y) eqn:Py; auto.
  rewrite (P_tied x y Px Py) in E. discriminate.
Qed.

Lemma sorted_desc_filter (l : list A) :
  filter P (sorted_desc lt l) = filter P l.
Proof.
  induction l as [|x l IH]; simpl; auto.
  rewrite insert_desc_filter. simpl. rewrite IH. reflexivity.
Qed.

End SortStable.

Section SortMap.

Context {A B : Type}.
Variable ltA : A -> A -> bool.
Variable ltB : B -> B -> bool.
Variable f : A -> B.
Hypothesis lt_f : forall a b, ltA a b = ltB (f a) (f b).

Lemma insert_desc_map (x : A) (l : list A) :
  map f (insert_desc ltA x l) = insert_desc ltB (f x) (map f l).
Proof.
  induction l as [|y l IH]; simpl; auto.
  rewrite <- lt_f. destruct (ltA x y); simpl; [rewrite IH|]; reflexivity.
Qed.

Lemma sorted_desc_map (l : list A) :
  map f (sorted_desc ltA l) = sorted_desc ltB (map f l).
Proof.
  induction l as [|x l IH]; simpl; auto.
  rewrite insert_desc_map, IH. reflexivity.
Qed.

End SortMap.

(** ** Facts about the text primitives *)

Module TextFacts.
Import Text.

Lemma lower_char_comma (c : ascii) :
  (lower_char c =? ",")%char = (c =? ",")%char.
Proof. destruct c as [[] [] [] [] [] [] [] []]; reflexivity. Qed.

Lemma lower_no_comma (s : string) : no_comma (lower s) = no_comma s.
Proof.
  induction s as [|c s IH]; simpl; auto.
  rewrite lower_char_comma, IH. reflexivity.
Qed.

Lemma lower_empty (s : string) : lower s = "" <-> s = "".
Proof. destruct s; simpl; split; auto; discriminate. Qed.

Lemma split_lower (s : string) : split (lower s) = map lower (split s).
Proof.
  induction s as [|c s IH]; simpl; auto.
  rewrite lower_char_comma, IH.
  destruct (c =? ",")%char; simpl; auto.
  destruct (split s); reflexivity.
Qed.

(** *** [split] undoes [join] on comma-free tags *)

Lemma split_no_comma (a : string) : no_comma a = true -> split a = [a].
Proof.
  induction a as [|c a IH]; simpl; auto.
  intros H. apply andb_true_iff in H. destruct H as [Hc Ha].
  apply negb_true_iff in Hc. rewrite Hc, (IH Ha). reflexivity.
Qed.

Lemma split_app_comma (a b : string) :
  no_comma a = true -> split (a ++ String "," b) = a :: split b.
Proof.
  induction a as [|c a IH]; simpl; auto.
  intros H. apply andb_true_iff in H. destruct H as [Hc Ha].
  apply negb_true_iff in Hc. rewrite Hc, (IH Ha). reflexivity.
Qed.

Lemma split_join (tags : list string) :
  forallb no_comma tags = true -> tags <> [] -> split (join tags) = tags.
Proof.
  unfold join.
  induction tags as [|x tags IH]; intros Hall Hne; [contradiction|].
  simpl in Hall. apply andb_true_iff in Hall. destruct Hall as [Hx Hall].
  destruct tags as [|y tags].
  - simpl. apply split_no_comma, Hx.
  - change (String.concat "," (x :: y :: tags))
      with (x ++ String "," (String.concat "," (y :: tags))).
    rewrite (split_app_comma _ _ Hx), IH; auto. discriminate.
Qed.

Lemma append_comma_nonempty (a b : string) : a ++ String "," b <> "".
Proof. destruct a; simpl; discriminate. Qed.

Lemma decode_join (tags : list string) :
  tags_ok tags = true -> decode (join tags) = tags.
Proof.
  unfold tags_ok, decode. intros H.
  apply andb_true_iff in H. destruct H as [Hall Hne].
  destruct tags as [|x [|y tags]].
  - reflexivity.
  - unfold join. simpl. simpl in Hne. apply negb_true_iff in Hne.
    rewrite Hne. simpl in Hall. rewrite andb_true_r in Hall.
    apply split_no_comma, Hall.
  - destruct (String.eqb_spec (join (x :: y :: tags)) "") as [E|_].
    + exfalso. revert E. apply append_comma_nonempty.
    + apply split_join; auto. discriminate.
Qed.

(** [tags_ok] is the whole of it: no other tag list comes back unchanged. *)

Lemma split_cons_length (c : ascii) (s : string) :
  (c =? ",")%char = false -> length (split (String c s)) = length (split s).
Proof.
  intros Hc. simpl. rewrite Hc.
  destruct (split s) as [|piece pieces] eqn:E; [|reflexivity].
  exfalso. destruct s as [|d s]; simpl in E; [discriminate|].
  destruct (d =? ",")%char; [discriminate|].
  destruct (split s); discriminate.
Qed.

Lemma split_length_pos (s : string) : 1 <= length (split s).
Proof.
  induction s as [|c s IH]; simpl; auto.
  destruct (c =? ",")%char eqn:Hc; simpl; [lia|].
  destruct (split s); simpl in *; lia.
Qed.

Lemma split_length_one (s : string) :
  length (split s) = 1 -> no_comma s = true.
Proof.
  induction s as [|c s IH]; auto.
  destruct (c =? ",")%char eqn:Hc.
  - simpl. rewrite Hc. simpl. pose proof (split_length_pos s). lia.
  - rewrite (split_cons_length _ _ Hc). intros H.
    simpl. rewrite Hc, (IH H). reflexivity.
Qed.

Lemma split_app_length (a b : string) :
  length (split (a ++ String "," b)) = length (split a) + length (split b).
Proof.
  induction a as [|c a IH]; [reflexivity|].
  destruct (c =? ",")%char eqn:Hc.
  - simpl. rewrite Hc. simpl. rewrite IH. reflexivity.
  - change (String c a ++ String "," b) with (String c (a ++ String "," b)).
    rewrite !(split_cons_length _ _ Hc). exact IH.
Qed.

Lemma split_join_length (x : string) (tags : list string) :
  length (split (join (x :: tags)))
  = list_sum (map (fun t => length (split t)) (x :: tags)).
Proof.
  revert x. induction tags as [|y tags IH]; intros x.
  - unfold join. cbn [String.concat map list_sum fold_right]. lia.
  - change (join (x :: y :: tags)) with (x ++ String "," (join (y :: tags))).
    rewrite split_app_length, IH. reflexivity.
Qed.

Lemma pieces_all_one (tags : list string) :
  list_sum (map (fun t => length (split t)) tags) = length tags ->
  forallb no_comma tags = true.
Proof.
  assert (forall l, length l <= list_sum (map (fun t => length (split t)) l)) as Hle.
  { induction l as [|t l IHl]; simpl; auto.
    pose proof (split_length_pos t). lia. }
  induction tags as [|t tags IH]; simpl; auto.
  intros H. pose proof (split_length_pos t). pose proof (Hle tags).
  rewrite split_length_one by lia. apply IH. lia.
Qed.

Lemma decode_join_only_if (tags : list string) :
  decode (join tags) = tags -> tags_ok tags = true.
Proof.
  unfold decode, tags_ok. destruct tags as [|x [|y tags]].
  - reflexivity.
  - unfold join. simpl String.concat.
    destruct (String.eqb_spec x "") as [->|Hx]; [discriminate|].
    intros H. simpl. rewrite split_length_one; [reflexivity|].
    rewrite H. reflexivity.
  - destruct (String.eqb_spec (join (x :: y :: tags)) "") as [_|_];
      [discriminate|].
    intros H. rewrite andb_true_r.
    apply pieces_all_one. rewrite <- split_join_length, H. reflexivity.
Qed.

(** *** [LIKE '%kw%'] is substring search when [kw] has no wildcard *)

Lemma like_percent (p s : string) :
  like_chars (String "%" p) s
  = like_chars p s || match s with
                      | EmptyString => false
                      | String _ s' => like_chars (String "%" p) s'
                      end.
Proof. destruct s; reflexivity. Qed.

Lemma like_any (s : string) : like_chars "%" s = true.
Proof.
  induction s as [|c s IH]; [reflexivity|].
  rewrite like_percent, IH. apply orb_true_r.
Qed.

Lemma prefix_nil (s : string) : String.prefix "" s = true.
Proof. destruct s; reflexivity. Qed.

Lemma like_literal (k s : string) :
  no_wildcard k = true ->
  like_chars (k ++ "%") s = String.prefix (lower k) (lower s).
Proof.
  revert s. induction k as [|c k IH]; intros s H.
  - simpl lower. rewrite prefix_nil. apply like_any.
  - simpl in H. apply andb_true_iff in H. destruct H as [H Hk].
    apply andb_true_iff in H. destruct H as [H1 H2].
    apply negb_true_iff in H1, H2.
    simpl. rewrite H1, H2.
    destruct s as [|d s]; simpl; auto.
    rewrite (IH s Hk).
    destruct (ascii_dec (lower_char c) (lower_char d)) as [E|E].
    + rewrite E, Ascii.eqb_refl. reflexivity.
    + apply Ascii.eqb_neq in E. rewrite E. reflexivity.
Qed.

Lemma like_chars_contains (k s : string) :
  no_wildcard k = true ->
  like_chars ("%" ++ k ++ "%") s = contains (lower k) (lower s).
Proof.
  intros Hk. change ("%" ++ k ++ "%") with (String "%" (k ++ "%")).
  induction s as [|c s IH].
  - rewrite like_percent, (like_literal _ _ Hk). reflexivity.
  - rewrite like_percent, (like_literal _ _ Hk), IH. reflexivity.
Qed.

Lemma until_nul_id (s : string) : no_nul s = true -> until_nul s = s.
Proof.
  induction s as [|c s IH]; simpl; auto.
  intros H. apply andb_true_iff in H. destruct H as [Hc Hs].
  apply negb_true_iff in Hc. rewrite Hc, (IH Hs). reflexivity.
Qed.

Lemma no_nul_app (a b : string) : no_nul (a ++ b) = no_nul a && no_nul b.
Proof.
  induction a as [|c a IH]; simpl; auto.
  rewrite IH, andb_assoc. reflexivity.
Qed.

(** Where neither the keyword nor the text holds a NUL, [LIKE '%kw%'] reads
    both in full. *)
Lemma like_contains (k s : string) :
  no_wildcard k = true -> no_nul k = true -> no_nul s = true ->
  like ("%" ++ k ++ "%") s = contains (lower k) (lower s).
Proof.
  intros Hk Hn Hs. unfold like.
  rewrite (until_nul_id s Hs), until_nul_id.
  - apply like_chars_contains, Hk.
  - rewrite !no_nul_app, Hn. reflexivity.
Qed.

(** *** A comma-free keyword occurs in a joined column iff it occurs in a
    piece *)

Lemma prefix_first_piece (k t : string) :
  no_comma k = true ->
  String.prefix k t = String.prefix k (hd "" (split t)).
Proof.
  revert k. induction t as [|c t IH]; intros k Hk; [reflexivity|].
  destruct k as [|a k]; [rewrite !prefix_nil; reflexivity|].
  simpl in Hk. apply andb_true_iff in Hk. destruct Hk as [Ha Hk].
  apply negb_true_iff in Ha.
  simpl. destruct (Ascii.eqb_spec c ",") as [->|Hc].
  - simpl. destruct (ascii_dec a ","); auto.
    subst a. rewrite Ascii.eqb_refl in Ha. discriminate.
  - destruct (split t) as [|piece pieces] eqn:E; simpl;
      destruct (ascii_dec a c); auto;
      rewrite (IH k Hk); reflexivity.
Qed.

Lemma prefix_empty_r (k : string) : k <> "" -> String.prefix k "" = false.
Proof. destruct k; [contradiction | reflexivity]. Qed.

Lemma split_nonempty (t : string) : split t <> [].
Proof.
  destruct t as [|c t]; simpl; [discriminate|].
  destruct (c =? ",")%char; [discriminate|].
  destruct (split t); discriminate.
Qed.

Lemma contains_empty_r (k : string) : k <> "" -> contains k "" = false.
Proof. destruct k; [contradiction | reflexivity]. Qed.

Lemma contains_split (k t : string) :
  no_comma k = true -> k <> "" ->
  contains k t = existsb (contains k) (split t).
Proof.
  intros Hk Hne. induction t as [|c t IH].
  - simpl. rewrite !orb_false_r. reflexivity.
  - change (contains k (String c t))
      with (String.prefix k (String c t) || contains k t).
    rewrite IH, (prefix_first_piece k (String c t) Hk).
    simpl split. destruct (c =? ",")%char.
    + cbn [hd existsb]. rewrite (contains_empty_r k Hne), (prefix_empty_r k Hne).
      reflexivity.
    + destruct (split t) as [|piece pieces] eqn:E.
      * exfalso. exact (split_nonempty t E).
      * cbn [hd existsb].
        change (contains k (String c piece))
          with (String.prefix k (String c piece) || contains k piece).
        rewrite orb_assoc. reflexivity.
Qed.

(** The [tags LIKE ?] test of the relational backend, on a keyword free of
    wildcards and commas, is the per-tag test of the document backend on the
    decoded tags. *)
Lemma like_tags_column (kw column : string) :
  no_wildcard kw = true -> no_comma kw = true -> kw <> "" ->
  no_nul kw = true -> no_nul column = true ->
  like ("%" ++ kw ++ "%") column
  = existsb (fun t => contains (lower kw) (lower t)) (decode column).
Proof.
  intros Hw Hc Hne Hn Hcol. rewrite (like_contains _ _ Hw Hn Hcol). unfold decode.
  assert (lower kw <> "") as Hl by (intros E; apply Hne, lower_empty, E).
  destruct (String.eqb_spec column "") as [->|_].
  - simpl lower. rewrite (contains_empty_r _ Hl). reflexivity.
  - rewrite contains_split; [|rewrite lower_no_comma; exact Hc | exact Hl].
    rewrite split_lower. induction (split column) as [|x l IHl]; simpl; auto.
    rewrite IHl. reflexivity.
Qed.

End TextFacts.

(** ** Facts about lookups in a list *)

Section FindFacts.

Context {A : Type}.
Variable p : A -> bool.

Lemma find_none_filter (l : list A) : find p l = None -> filter p l = [].
Proof.
  induction l as [|x l IH]; simpl; auto.
  destruct (p x); [discriminate | exact IH].
Qed.

Lemma find_none_filter_neg (l : list A) :
  find p l = None -> filter (fun x => negb (p x)) l = l.
Proof.
  induction l as [|x l IH]; simpl; auto.
  destruct (p x); simpl; [discriminate|].
  intros H. rewrite (IH H). reflexivity.
Qed.

Lemma find_some_filter (l : list A) (x : A) :
  find p l = Some x -> 0 < length (filter p l).
Proof.
  induction l as [|y l IH]; simpl; [discriminate|].
  destruct (p y); simpl; [lia | exact IH].
Qed.

Lemma filter_neg_length (l : list A) :
  length (filter (fun x => negb (p x)) l) <= length l.
Proof.
  induction l as [|y l IH]; simpl; auto.
  destruct (p y); simpl; lia.
Qed.

Lemma find_some_filter_neg (l : list A) (x : A) :
  find p l = Some x -> length (filter (fun x => negb (p x)) l) < length l.
Proof.
  induction l as [|y l IH]; simpl; [discriminate|].
  destruct (p y); simpl.
  - intros _. pose proof (filter_neg_length l). lia.
  - intros H. apply IH in H. lia.
Qed.

Lemma find_filter_neg (l : list A) :
  find p (filter (fun x => negb (p x)) l) = None.
Proof.
  induction l as [|y l IH]; simpl; auto.
  destruct (p y) eqn:E; simpl; auto.
  rewrite E. exact IH.
Qed.

Lemma find_none_map_if (f : A -> A) (l : list A) :
  find p l = None -> map (fun x => if p x then f x else x) l = l.
Proof.
  induction l as [|y l IH]; simpl; auto.
  destruct (p y); [discriminate|].
  intros H. rewrite (IH H). reflexivity.
Qed.

Lemma find_none_existsb (l : list A) : find p l = None <-> existsb p l = false.
Proof.
  induction l as [|y l IH]; simpl; [tauto|].
  destruct (p y); simpl; [split; discriminate | exact IH].
Qed.

Lemma find_app_fresh (l : list A) (x : A) :
  existsb p l = false -> p x = true -> find p (l ++ [x]) = Some x.
Proof.
  induction l as [|y l IH]; simpl; intros Hl Hx.
  - rewrite Hx. reflexivity.
  - apply orb_false_iff in Hl. destruct Hl as [Hy Hl].
    rewrite Hy. apply IH; assumption.
Qed.

End FindFacts.

(** ** Deleting *)

Lemma sqlite_delete_found (s : SQLiteStorage.store) (entry_id : string) (e : Entry.t) :
  SQLiteStorage.get_entry s entry_id = Some e ->
  fst (SQLiteStorage.delete_entry s entry_id) = true
  /\ SQLiteStorage.get_entry (snd (SQLiteStorage.delete_entry s entry_id)) entry_id = None.
Proof.
  unfold SQLiteStorage.get_entry, SQLiteStorage.delete_entry. simpl.
  destruct (find _ s) as [r|] eqn:F; [intros _ | discriminate].
  split.
  - apply Nat.ltb_lt. eapply find_some_filter, F.
  - rewrite find_filter_neg. reflexivity.
Qed.

Lemma sqlite_delete_missing (s : SQLiteStorage.store) (entry_id : string) :
  SQLiteStorage.get_entry s entry_id = None ->
  SQLiteStorage.delete_entry s entry_id = (false, s).
Proof.
  unfold SQLiteStorage.get_entry, SQLiteStorage.delete_entry.
  destruct (find _ s) as [r|] eqn:F; [discriminate | intros _].
  rewrite (find_none_filter _ _ F), (find_none_filter_neg _ _ F). reflexivity.
Qed.

Lemma json_delete_found (s : JSONStorage.store) (entry_id : string) (e : Entry.t) :
  JSONStorage.get_entry s entry_id = Some e ->
  fst (JSONStorage.delete_entry s entry_id) = true
  /\ JSONStorage.get_entry (snd (JSONStorage.delete_entry s entry_id)) entry_id = None.
Proof.
  unfold JSONStorage.get_entry, JSONStorage.delete_entry. intros F.
  pose proof (find_some_filter_neg _ _ _ F) as Hlt.
  destruct (Nat.eqb_spec (length (filter (fun e0 => negb (Entry.id e0 =? entry_id)) s))
                         (length s)) as [E|_]; [lia|].
  simpl. split; [reflexivity | apply find_filter_neg].
Qed.

Lemma json_delete_missing (s : JSONStorage.store) (entry_id : string) :
  JSONStorage.get_entry s entry_id = None ->
  JSONStorage.delete_entry s entry_id = (false, s).
Proof.
  unfold JSONStorage.get_entry, JSONStorage.delete_entry. intros F.
  rewrite (find_none_filter_neg _ _ F), Nat.eqb_refl. reflexivity.
Qed.

(** C6. [delete_entry] on an id that [get_entry] finds returns true and
    leaves a store in which [get_entry] no longer finds the id; on an id
    that [get_entry] does not find it returns false and the store, hence its
    entry count, is unchanged.  Both backends. *)
Theorem delete_entry_semantics
        (s1 : SQLiteStorage.store) (s2 : JSONStorage.store) (entry_id : string) :
  match SQLiteStorage.get_entry s1 entry_id with
  | Some _ =>
      fst (SQLiteStorage.delete_entry s1 entry_id) = true
      /\ SQLiteStorage.get_entry (snd (SQLiteStorage.delete_entry s1 entry_id))
                                 entry_id = None
  | None => SQLiteStorage.delete_entry s1 entry_id = (false, s1)
  end
  /\ match JSONStorage.get_entry s2 entry_id with
     | Some _ =>
         fst (JSONStorage.delete_entry s2 entry_id) = true
         /\ JSONStorage.get_entry (snd (JSONStorage.delete_entry s2 entry_id))
                                  entry_id = None
     | None => JSONStorage.delete_entry s2 entry_id = (false, s2)
     end.
Proof.
  split.
  - destruct (SQLiteStorage.get_entry s1 entry_id) as [e|] eqn:G.
    + eapply sqlite_delete_found, G.
    + apply sqlite_delete_missing, G.
  - destruct (JSONStorage.get_entry s2 entry_id) as [e|] eqn:G.
    + eapply json_delete_found, G.
    + apply json_delete_missing, G.
Qed.

(** ** Search order in the document backend *)

(** C9. In the document backend, the entries of a search result that share
    a date appear in the order the stored list has them: the sort by date
    has no second key and is stable. *)
Theorem json_search_keeps_load_order
        (s : JSONStorage.store) (keyword d : string) :
  filter (fun e => Entry.date e =? d) (JSONStorage.search_entries s keyword)
  = filter (fun e => Entry.date e =? d)
           (filter (JSONStorage.matches (Text.lower keyword)) s).
Proof.
  unfold JSONStorage.search_entries.
  apply sorted_desc_filter.
  intros a b Ha Hb.
  apply String.eqb_eq in Ha, Hb. rewrite Ha, Hb. apply ltb_irrefl.
Qed.

(** ** Reading by date *)

Lemma Sorted_weaken {A : Type} (R R' : A -> A -> Prop) (l : list A) :
  (forall a b, R a b -> R' a b) -> Sorted R l -> Sorted R' l.
Proof.
  intros HR. induction 1 as [|a l Hs IH Hhd]; constructor; auto.
  destruct Hhd; constructor; auto.
Qed.

Lemma Sorted_map {A B : Type} (f : A -> B) (R : B -> B -> Prop) (l : list A) :
  Sorted (fun a b => R (f a) (f b)) l -> Sorted R (map f l).
Proof.
  induction 1 as [|a l Hs IH Hhd]; simpl; constructor; auto.
  destruct Hhd; simpl; constructor; auto.
Qed.

(** The relational backend returns the rows of the date, newest first. *)
Lemma sqlite_get_entries_by_date_sorted (s : SQLiteStorage.store) (d : string) :
  Permutation (SQLiteStorage.get_entries_by_date s d)
              (filter (fun e => Entry.date e =? d)
                      (map SQLiteStorage._row_to_entry s))
  /\ Sorted newest_first (SQLiteStorage.get_entries_by_date s d).
Proof.
  unfold SQLiteStorage.get_entries_by_date. split.
  - eapply perm_trans; [apply Permutation_map, sorted_desc_perm|].
    induction s as [|r s IH]; simpl; auto.
    destruct (Row.date r =? d); simpl; auto.
  - apply Sorted_map.
    eapply Sorted_weaken; [|apply sorted_desc_sorted].
    + intros a b H. apply ltb_false_leb. exact H.
    + intros a b. apply ltb_asym.
Qed.

(** C2. After two adds on one date, [get_entries_by_date] of the document
    backend returns the older entry first, so its result is not ordered
    newest first; the relational backend returns the newer entry first on
    the same operations. *)
Theorem json_get_entries_by_date_oldest_first :
  map Entry.created_at
      (JSONStorage.get_entries_by_date (json_run same_day_drafts) "2024-01-01")
  = ["2024-01-01T08:00:00"; "2024-01-01T20:00:00"]
  /\ ~ Sorted newest_first
       (JSONStorage.get_entries_by_date (json_run same_day_drafts) "2024-01-01")
  /\ map Entry.created_at
         (SQLiteStorage.get_entries_by_date (sqlite_run same_day_drafts) "2024-01-01")
     = ["2024-01-01T20:00:00"; "2024-01-01T08:00:00"].
Proof.
  split; [reflexivity|]. split; [|reflexivity].
  intros H. vm_compute in H.
  inversion H as [|a l Hs Hhd]; subst.
  inversion Hhd as [|b l' Hab]; subst.
  vm_compute in Hab. discriminate.
Qed.

(** ** Searching *)

Lemma json_search_exact (s : JSONStorage.store) (kw : string) :
  Permutation (JSONStorage.search_entries s kw) (filter (search_spec kw) s)
  /\ Sorted date_desc (JSONStorage.search_entries s kw).
Proof.
  unfold JSONStorage.search_entries. split.
  - apply sorted_desc_perm.
  - eapply Sorted_weaken; [|apply sorted_desc_sorted].
    + intros a b H. apply ltb_false_leb. exact H.
    + intros a b. apply ltb_asym.
Qed.

Lemma map_filter_commute {A B : Type} (f : A -> B) (p : A -> bool) (q : B -> bool) (l : list A) :
  (forall a, p a = q (f a)) -> map f (filter p l) = filter q (map f l).
Proof.
  intros H. induction l as [|a l IH]; simpl; auto.
  rewrite <- H. destruct (p a); simpl; rewrite IH; reflexivity.
Qed.

Lemma map_filter_commute_in {A B : Type} (f : A -> B) (p : A -> bool)
      (q : B -> bool) (l : list A) :
  Forall (fun a => p a = q (f a)) l -> map f (filter p l) = filter q (map f l).
Proof.
  induction 1 as [|a l Ha Hl IH]; simpl; auto.
  rewrite <- Ha. destruct (p a); simpl; rewrite IH; reflexivity.
Qed.

(** On a non-empty keyword without [%], [_], [,] and NUL, and rows whose
    text holds no NUL, the relational search is the document search run on
    the decoded rows. *)
Lemma sqlite_search_as_json (s : SQLiteStorage.store) (kw : string) :
  kw <> "" -> Text.no_wildcard kw = true -> Text.no_comma kw = true ->
  Text.no_nul kw = true ->
  Forall (fun r => plain_row r = true) s ->
  SQLiteStorage.search_entries s kw
  = JSONStorage.search_entries (map SQLiteStorage._row_to_entry s) kw.
Proof.
  intros Hne Hw Hc Hn Hs.
  unfold SQLiteStorage.search_entries, JSONStorage.search_entries.
  rewrite (sorted_desc_map _ (fun a b => Entry.date a <? Entry.date b)
                           SQLiteStorage._row_to_entry)
    by reflexivity.
  f_equal. apply map_filter_commute_in.
  eapply Forall_impl; [|exact Hs]. intros r Hr.
  unfold plain_row, plain in Hr.
  apply andb_true_iff in Hr. destruct Hr as [Hr Htags].
  apply andb_true_iff in Hr. destruct Hr as [Htitle Hbody].
  apply andb_true_iff in Htags. destruct Htags as [_ Htags].
  apply andb_true_iff in Htitle. destruct Htitle as [_ Htitle].
  apply andb_true_iff in Hbody. destruct Hbody as [_ Hbody].
  unfold JSONStorage.matches, SQLiteStorage._row_to_entry.
  cbn [Entry.title Entry.body Entry.tags].
  rewrite (TextFacts.like_contains _ _ Hw Hn Htitle).
  rewrite (TextFacts.like_contains _ _ Hw Hn Hbody).
  f_equal.
  apply (TextFacts.like_tags_column kw (Row.tags r) Hw Hc Hne Hn Htags).
Qed.

(** C3, amended.  On ASCII text, for a non-empty keyword, [search_entries]
    of the document backend returns exactly the entries in which the
    keyword occurs, case ignored, in the title, the body or one of the
    tags, ordered by date descending; the result is empty when no entry
    matches.  The relational backend does the same when, besides, the
    keyword holds none of [%], [_], [,] and NUL, the pattern built from it
    is within the length [LIKE] accepts, and no title, body or tags column
    of the table holds a NUL. *)
Theorem search_entries_exact
        (s1 : SQLiteStorage.store) (s2 : JSONStorage.store) (kw : string) :
  kw <> "" -> Text.is_ascii kw = true ->
  (Text.no_wildcard kw = true -> Text.no_comma kw = true ->
   Text.no_nul kw = true -> within_like_limit kw = true ->
   Forall (fun r => plain_row r = true) s1 ->
   Permutation (SQLiteStorage.search_entries s1 kw)
               (filter (search_spec kw) (map SQLiteStorage._row_to_entry s1))
   /\ Sorted date_desc (SQLiteStorage.search_entries s1 kw))
  /\ (Forall (fun e => ascii_entry e = true) s2 ->
      Permutation (JSONStorage.search_entries s2 kw)
                  (filter (search_spec kw) s2)
      /\ Sorted date_desc (JSONStorage.search_entries s2 kw)).
Proof.
  intros Hne Hascii. split.
  - intros Hw Hc Hn Hlimit Hrows.
    rewrite (sqlite_search_as_json s1 kw Hne Hw Hc Hn Hrows).
    apply json_search_exact.
  - intros Hentries. apply json_search_exact.
Qed.

Lemma search_entries_exact_witness :
  (Permutation (SQLiteStorage.search_entries (sqlite_run work_drafts) "work")
               (filter (search_spec "work")
                       (map SQLiteStorage._row_to_entry (sqlite_run work_drafts)))
   /\ Sorted date_desc (SQLiteStorage.search_entries (sqlite_run work_drafts) "work"))
  /\ (Permutation (JSONStorage.search_entries (json_run work_drafts) "work")
                  (filter (search_spec "work") (json_run work_drafts))
      /\ Sorted date_desc (JSONStorage.search_entries (json_run work_drafts) "work")).
Proof.
  assert ("work" <> "") as Hne by discriminate.
  destruct (search_entries_exact (sqlite_run work_drafts) (json_run work_drafts)
                                 "work" Hne eq_refl)
    as [H1 H2].
  split.
  - apply H1; try reflexivity. repeat constructor.
  - apply H2. repeat constructor.
Defined.

(** The keyword [a,b] occurs in no title, body or tag of the store, yet the
    relational search returns the entry: it matches the joined column. *)
Lemma sqlite_search_matches_across_tags :
  filter (search_spec "a,b")
         (map SQLiteStorage._row_to_entry (sqlite_run two_tags)) = []
  /\ ~ Permutation (SQLiteStorage.search_entries (sqlite_run two_tags) "a,b")
                   (filter (search_spec "a,b")
                           (map SQLiteStorage._row_to_entry (sqlite_run two_tags))).
Proof.
  split; [reflexivity|].
  intros H. apply Permutation_sym, Permutation_nil in H.
  vm_compute in H. discriminate.
Qed.

(** ** The two backends on one sequence of operations *)

Section Simulation.

Import SQLiteStorage.

Lemma has_id_decoded (s : store) (entry_id : string) :
  JSONStorage.has_id (map _row_to_entry s) entry_id = has_id s entry_id.
Proof.
  unfold JSONStorage.has_id, has_id.
  induction s as [|r s IH]; simpl; auto. rewrite IH. reflexivity.
Qed.

Lemma has_id_false_not_in (s : store) (entry_id : string) :
  has_id s entry_id = false -> ~ In entry_id (map Row.id s).
Proof.
  unfold has_id. induction s as [|r s IH]; simpl; [tauto|].
  intros H. apply orb_false_iff in H. destruct H as [Hr Hs].
  apply String.eqb_neq in Hr. intros [E|E]; [auto | exact (IH Hs E)].
Qed.

Lemma not_in_map_id (s : store) (entry_id : string) (f : Row.t -> Row.t) :
  ~ In entry_id (map Row.id s) ->
  map (fun r => if Row.id r =? entry_id then f r else r) s = s.
Proof.
  induction s as [|r s IH]; simpl; auto.
  intros H. destruct (String.eqb_spec (Row.id r) entry_id) as [E|_].
  - exfalso. apply H. left. exact E.
  - rewrite IH; auto.
Qed.

(** Deleting rows keeps the ids of the table pairwise distinct. *)
Lemma distinct_ids_filter (keep : Row.t -> bool) (s : store) :
  NoDup (map Row.id s) -> NoDup (map Row.id (filter keep s)).
Proof.
  intros Hnd. induction s as [|r s IH]; simpl; [constructor|].
  simpl in Hnd. apply NoDup_cons_iff in Hnd. destruct Hnd as [Hr Hs].
  destruct (keep r); simpl; [|exact (IH Hs)].
  apply NoDup_cons; [|exact (IH Hs)].
  intros Hin. apply Hr.
  apply in_map_iff in Hin. destruct Hin as [x [Hx Hin]].
  apply filter_In in Hin. destruct Hin as [Hin _].
  rewrite <- Hx. apply in_map, Hin.
Qed.

Lemma filter_length_eq {A : Type} (p : A -> bool) (l : list A) :
  length (filter p l) = length l -> filter p l = l.
Proof.
  induction l as [|a l IH]; simpl; auto.
  destruct (p a); simpl; intros H.
  - rewrite IH; auto.
  - pose proof (filter_length_le p l). lia.
Qed.

Lemma row_to_entry_joined
      (i d t b m c u : string) (tags : list string) :
  tags_ok tags = true ->
  _row_to_entry (Row.mk i d t b m (Text.join tags) c u)
  = Entry.mk i d t b m tags c u.
Proof.
  intros Ht. unfold _row_to_entry. simpl.
  change (if Text.join tags =? "" then [] else Text.split (Text.join tags))
    with (Text.decode (Text.join tags)).
  rewrite (TextFacts.decode_join _ Ht). reflexivity.
Qed.

(** The row [update_entry] writes decodes to the entry the document backend
    writes, when the tags survive the column. *)
Lemma json_update_loop_decoded
      (s : store) (entry_id : string) (updated : Draft.t) (now date : string) :
  Draft.date updated = Some date ->
  tags_ok (get_default (Draft.tags updated) []) = true ->
  NoDup (map Row.id s) ->
  forall b s', update_entry s entry_id updated now = Ok (b, s') ->
  JSONStorage.update_loop (map _row_to_entry s) entry_id updated now
  = Ok (if b then Some (map _row_to_entry s') else None).
Proof.
  intros Hd Ht. unfold update_entry. rewrite Hd.
  induction s as [|r s IH]; intros Hnd b s' H; inversion H; subst; clear H.
  - reflexivity.
  - inversion Hnd as [|? ? Hn Hnd']; subst.
    simpl. rewrite Hd.
    destruct (String.eqb_spec (Row.id r) entry_id) as [E|E].
    + simpl. rewrite (not_in_map_id s entry_id); [|rewrite <- E; exact Hn].
      rewrite (row_to_entry_joined _ _ _ _ _ _ _ _ Ht). reflexivity.
    + rewrite (IH Hnd' _ _ eq_refl).
      destruct (Nat.ltb 0 (length (filter (fun r0 => Row.id r0 =? entry_id) s)));
        reflexivity.
Qed.

Lemma json_update_loop_no_date
      (s : JSONStorage.store) (entry_id : string) (updated : Draft.t) (now : string) :
  Draft.date updated = None ->
  JSONStorage.update_loop s entry_id updated now = Ok None
  \/ exists x, JSONStorage.update_loop s entry_id updated now = Raise x.
Proof.
  intros Hd. induction s as [|e s IH]; simpl; auto.
  rewrite Hd. destruct (Entry.id e =? entry_id); [right; eauto|].
  destruct IH as [-> | [x ->]]; [left | right; eauto]; reflexivity.
Qed.

(** One operation keeps the document equal to the decoded table, and the
    ids of the table pairwise distinct. *)
Lemma step_decoded (s : store) (o : op) :
  NoDup (map Row.id s) ->
  op_ok (map _row_to_entry s) o = true ->
  json_step (map _row_to_entry s) o = map _row_to_entry (sqlite_step s o)
  /\ NoDup (map Row.id (sqlite_step s o)).
Proof.
  intros Hnd Hok. destruct o as [entry uuid now | entry_id updated now | entry_id];
    simpl in Hok.
  - apply andb_true_iff in Hok. destruct Hok as [Hid Ht].
    apply negb_true_iff in Hid. rewrite has_id_decoded in Hid.
    simpl. unfold JSONStorage.add_entry, add_entry.
    destruct (Draft.date entry) as [date|]; [|auto].
    rewrite Hid. split.
    + rewrite map_app. simpl map.
      rewrite (row_to_entry_joined _ _ _ _ _ _ _ _ Ht). reflexivity.
    + rewrite map_app. simpl.
      apply NoDup_app; [exact Hnd | repeat constructor; simpl; tauto |].
      intros x Hx [<-|[]]. revert Hx. apply has_id_false_not_in, Hid.
  - simpl. destruct (Draft.date updated) as [date|] eqn:Hd.
    + destruct (update_entry s entry_id updated now) as [[b s']|x] eqn:U.
      * unfold JSONStorage.update_entry.
        rewrite (json_update_loop_decoded s entry_id updated now date Hd Hok Hnd b s' U).
        unfold update_entry in U. rewrite Hd in U. inversion U; subst.
        split.
        -- destruct (Nat.ltb 0 _) eqn:L; auto.
           apply Nat.ltb_ge in L.
           assert (filter (fun r => Row.id r =? entry_id) s = []) as F
               by (destruct (filter _ s); simpl in L; [reflexivity | lia]).
           f_equal. symmetry. apply not_in_map_id.
           intros Hin. apply in_map_iff in Hin. destruct Hin as [r [E Hin]].
           assert (In r (filter (fun r => Row.id r =? entry_id) s)) as Hf
               by (apply filter_In; split; auto; apply String.eqb_eq; exact E).
           rewrite F in Hf. exact Hf.
        -- rewrite map_map.
           erewrite map_ext; [exact Hnd|].
           intros r. simpl. destruct (Row.id r =? entry_id); reflexivity.
      * unfold update_entry in U. rewrite Hd in U. discriminate.
    + unfold update_entry, JSONStorage.update_entry. rewrite Hd.
      destruct (json_update_loop_no_date (map _row_to_entry s) entry_id updated now Hd)
        as [-> | [x ->]]; auto.
  - simpl. unfold JSONStorage.delete_entry.
    rewrite <- (map_filter_commute _row_to_entry
                  (fun r => negb (Row.id r =? entry_id))
                  (fun e => negb (Entry.id e =? entry_id)) s)
      by reflexivity.
    rewrite !length_map. split.
    + destruct (Nat.eqb_spec (length (filter (fun r => negb (Row.id r =? entry_id)) s))
                             (length s)) as [E|_]; simpl; auto.
      rewrite (filter_length_eq _ _ E). reflexivity.
    + apply distinct_ids_filter, Hnd.
Qed.

Lemma run_decoded (ops : list op) (s : store) :
  NoDup (map Row.id s) ->
  replay_ok (map _row_to_entry s) ops = true ->
  fold_left json_step ops (map _row_to_entry s)
  = map _row_to_entry (fold_left sqlite_step ops s).
Proof.
  revert s. induction ops as [|o ops IH]; intros s Hnd Hok; simpl; auto.
  simpl in Hok. apply andb_true_iff in Hok. destruct Hok as [Ho Hok].
  destruct (step_decoded s o Hnd Ho) as [E Hnd'].
  rewrite E in *. apply IH; assumption.
Qed.

(** Listing the table is listing the decoded table. *)
Lemma list_entries_decoded (s : store) :
  list_entries s = JSONStorage.list_entries (map _row_to_entry s).
Proof.
  unfold list_entries, JSONStorage.list_entries.
  apply sorted_desc_map. reflexivity.
Qed.

End Simulation.

(** C1, amended.  Replay one sequence of operations, with the same generated
    ids and timestamps, against both backends.  If every add stores under an
    id that is not stored at that moment, and no tag list handed to add or
    update holds a tag with a comma or is the single empty tag, then
    [list_entries] returns the same sequence of entries, field for field, in
    both. *)
Theorem list_entries_cross_backend (ops : list op) :
  replay_ok JSONStorage.empty ops = true ->
  SQLiteStorage.list_entries (sqlite_run ops)
  = JSONStorage.list_entries (json_run ops).
Proof.
  intros Hok. unfold sqlite_run, json_run.
  rewrite list_entries_decoded.
  rewrite <- (run_decoded ops SQLiteStorage.empty); auto.
  constructor.
Qed.

Lemma list_entries_cross_backend_witness :
  replay_ok JSONStorage.empty scenario = true
  /\ SQLiteStorage.list_entries (sqlite_run scenario)
     = JSONStorage.list_entries (json_run scenario).
Proof.
  split; [reflexivity | apply (list_entries_cross_backend scenario); reflexivity].
Defined.

(** The relational backend lists the tag [a,b] as the two tags [a] and [b];
    the document backend lists it as it was given. *)
Lemma list_entries_differ_on_comma_tag :
  map Entry.tags (SQLiteStorage.list_entries (sqlite_run comma_tag)) = [["a"; "b"]]
  /\ map Entry.tags (JSONStorage.list_entries (json_run comma_tag)) = [["a,b"]]
  /\ SQLiteStorage.list_entries (sqlite_run comma_tag)
     <> JSONStorage.list_entries (json_run comma_tag).
Proof.
  split; [reflexivity|]. split; [reflexivity|].
  intros H. apply (f_equal (map Entry.tags)) in H.
  vm_compute in H. discriminate.
Qed.

(** ** Adding *)

Lemma sqlite_add_then_get
      (s : SQLiteStorage.store) (entry : Draft.t) (uuid now date : string) :
  Draft.date entry = Some date ->
  SQLiteStorage.has_id s (get_default (Draft.id entry) uuid) = false ->
  tags_ok (get_default (Draft.tags entry) []) = true ->
  exists s',
    SQLiteStorage.add_entry s entry uuid now
    = Ok (get_default (Draft.id entry) uuid, s')
    /\ SQLiteStorage.get_entry s' (get_default (Draft.id entry) uuid)
       = Some (drafted entry (get_default (Draft.id entry) uuid) date now).
Proof.
  intros Hd Hid Ht. unfold SQLiteStorage.add_entry. rewrite Hd, Hid.
  eexists. split; [reflexivity|].
  unfold SQLiteStorage.get_entry.
  rewrite find_app_fresh; [|exact Hid | apply String.eqb_refl].
  simpl. rewrite (row_to_entry_joined _ _ _ _ _ _ _ _ Ht). reflexivity.
Qed.

Lemma json_add_then_get
      (s : JSONStorage.store) (entry : Draft.t) (uuid now date : string) :
  Draft.date entry = Some date ->
  JSONStorage.has_id s (get_default (Draft.id entry) uuid) = false ->
  exists s',
    JSONStorage.add_entry s entry uuid now
    = Ok (get_default (Draft.id entry) uuid, s')
    /\ JSONStorage.get_entry s' (get_default (Draft.id entry) uuid)
       = Some (drafted entry (get_default (Draft.id entry) uuid) date now).
Proof.
  intros Hd Hid. unfold JSONStorage.add_entry. rewrite Hd.
  eexists. split; [reflexivity|].
  unfold JSONStorage.get_entry.
  rewrite find_app_fresh; [reflexivity | exact Hid | apply String.eqb_refl].
Qed.

(** C4, amended.  Add a draft that has a date, under an id that is not
    stored yet.  In the document backend, and in the relational backend when
    no tag of the draft holds a comma and the tags are not the single empty
    tag, [get_entry] of the returned id gives the date, title, body, mood
    and tags of the draft, with [created_at] and [updated_at] both set to
    the time of the add. *)
Theorem get_entry_after_add_entry
        (s1 : SQLiteStorage.store) (s2 : JSONStorage.store)
        (entry : Draft.t) (uuid now date : string) :
  Draft.date entry = Some date ->
  (SQLiteStorage.has_id s1 (get_default (Draft.id entry) uuid) = false ->
   tags_ok (get_default (Draft.tags entry) []) = true ->
   exists s1',
     SQLiteStorage.add_entry s1 entry uuid now
     = Ok (get_default (Draft.id entry) uuid, s1')
     /\ SQLiteStorage.get_entry s1' (get_default (Draft.id entry) uuid)
        = Some (drafted entry (get_default (Draft.id entry) uuid) date now))
  /\ (JSONStorage.has_id s2 (get_default (Draft.id entry) uuid) = false ->
      exists s2',
        JSONStorage.add_entry s2 entry uuid now
        = Ok (get_default (Draft.id entry) uuid, s2')
        /\ JSONStorage.get_entry s2' (get_default (Draft.id entry) uuid)
           = Some (drafted entry (get_default (Draft.id entry) uuid) date now)).
Proof.
  intros Hd. split.
  - intros Hid Ht. apply sqlite_add_then_get; assumption.
  - intros Hid. apply json_add_then_get; assumption.
Qed.

Lemma get_entry_after_add_entry_witness :
  (exists s1',
      SQLiteStorage.add_entry SQLiteStorage.empty first_draft "A" "2024-01-01T10:00:00"
      = Ok ("A", s1')
      /\ SQLiteStorage.get_entry s1' "A"
         = Some (Entry.mk "A" "2024-01-01" "First" "" "happy" ["x"; "y"]
                          "2024-01-01T10:00:00" "2024-01-01T10:00:00"))
  /\ (exists s2',
         JSONStorage.add_entry JSONStorage.empty first_draft "A" "2024-01-01T10:00:00"
         = Ok ("A", s2')
         /\ JSONStorage.get_entry s2' "A"
            = Some (Entry.mk "A" "2024-01-01" "First" "" "happy" ["x"; "y"]
                             "2024-01-01T10:00:00" "2024-01-01T10:00:00")).
Proof.
  destruct (get_entry_after_add_entry SQLiteStorage.empty JSONStorage.empty first_draft
                         "A" "2024-01-01T10:00:00" "2024-01-01" eq_refl)
    as [H1 H2].
  split; [apply H1; reflexivity | apply H2; reflexivity].
Defined.

(** A draft whose only tag holds a comma is read back from the relational
    backend with two tags. *)
Lemma sqlite_add_then_get_splits_tag :
  exists s',
    SQLiteStorage.add_entry SQLiteStorage.empty
      (Draft.mk None (Some "2024-01-01") None None None (Some ["a,b"]))
      "A" "2024-01-01T10:00:00" = Ok ("A", s')
    /\ option_map Entry.tags (SQLiteStorage.get_entry s' "A") = Some ["a"; "b"]
    /\ option_map Entry.tags (SQLiteStorage.get_entry s' "A") <> Some ["a,b"].
Proof.
  eexists. split; [reflexivity|]. split; [reflexivity|].
  vm_compute. discriminate.
Qed.

(** C7, amended.  A draft without a date makes [add_entry] of either backend
    raise [KeyError] on the key [date].  A draft with a date is always added
    by the document backend; the relational backend adds it when the id it
    stores under, the draft's own or else the generated one, is not stored
    yet, and raises [IntegrityError] when it is. *)
Theorem add_entry_failures
        (s1 : SQLiteStorage.store) (s2 : JSONStorage.store)
        (entry : Draft.t) (uuid now : string) :
  match Draft.date entry with
  | None =>
      SQLiteStorage.add_entry s1 entry uuid now = Raise (KeyError "date")
      /\ JSONStorage.add_entry s2 entry uuid now = Raise (KeyError "date")
  | Some _ =>
      (exists r, JSONStorage.add_entry s2 entry uuid now = Ok r)
      /\ (if SQLiteStorage.has_id s1 (get_default (Draft.id entry) uuid)
          then SQLiteStorage.add_entry s1 entry uuid now = Raise IntegrityError
          else exists r, SQLiteStorage.add_entry s1 entry uuid now = Ok r)
  end.
Proof.
  unfold SQLiteStorage.add_entry, JSONStorage.add_entry.
  destruct (Draft.date entry) as [date|]; [|split; reflexivity].
  split; [eexists; reflexivity|].
  destruct (SQLiteStorage.has_id s1 _); [reflexivity | eexists; reflexivity].
Qed.

(** The relational backend refuses a draft that has a date when its id is
    stored already. *)
Lemma sqlite_add_fails_on_stored_id :
  Draft.date first_draft_again = Some "2024-02-01"
  /\ SQLiteStorage.add_entry (sqlite_run scenario) first_draft_again
                             "B" "2024-02-01T10:00:00"
     = Raise IntegrityError.
Proof. split; reflexivity. Qed.

(** C10, amended.  With a draft that has a date and an [id] key, the
    document backend returns that id and appends the entry under it; the
    relational backend does the same when the id is not stored yet.  A draft
    without an [id] key is stored under the generated id. *)
Theorem add_entry_id_choice
        (s1 : SQLiteStorage.store) (s2 : JSONStorage.store)
        (entry : Draft.t) (uuid now date : string) :
  Draft.date entry = Some date ->
  let entry_id := match Draft.id entry with Some i => i | None => uuid end in
  JSONStorage.add_entry s2 entry uuid now
  = Ok (entry_id, (s2 ++ [drafted entry entry_id date now])%list)
  /\ (SQLiteStorage.has_id s1 entry_id = false ->
      exists row,
        SQLiteStorage.add_entry s1 entry uuid now
        = Ok (entry_id, (s1 ++ [row])%list)
        /\ Row.id row = entry_id).
Proof.
  intros Hd entry_id.
  unfold JSONStorage.add_entry, SQLiteStorage.add_entry. rewrite Hd.
  split; [reflexivity|].
  intros Hid. fold (get_default (Draft.id entry) uuid) in entry_id.
  subst entry_id. rewrite Hid. eexists. split; reflexivity.
Qed.

Lemma add_entry_id_choice_witness :
  JSONStorage.add_entry (json_run scenario) first_draft_again
                        "B" "2024-02-01T10:00:00"
  = Ok ("A", (json_run scenario
              ++ [drafted first_draft_again "A" "2024-02-01" "2024-02-01T10:00:00"])%list)
  /\ (exists row,
        SQLiteStorage.add_entry SQLiteStorage.empty first_draft_again
                                "B" "2024-02-01T10:00:00"
        = Ok ("A", (SQLiteStorage.empty ++ [row])%list)
        /\ Row.id row = "A").
Proof.
  destruct (add_entry_id_choice SQLiteStorage.empty (json_run scenario)
                                first_draft_again "B" "2024-02-01T10:00:00"
                                "2024-02-01" eq_refl)
    as [H1 H2].
  split; [exact H1 | apply H2; reflexivity].
Defined.

(** The relational backend does not return the id of a draft when that id
    is stored already: the add raises. *)
Lemma sqlite_add_does_not_return_stored_id :
  Draft.id first_draft_again = Some "A"
  /\ ~ exists s',
         SQLiteStorage.add_entry (sqlite_run scenario) first_draft_again
                                 "B" "2024-02-01T10:00:00"
         = Ok ("A", s').
Proof.
  split; [reflexivity|]. intros [s' H]. vm_compute in H. discriminate.
Qed.

(** ** Timestamps *)

Lemma clock_ok_app (t : string) (ops rest : list op) :
  clock_ok t (ops ++ rest) = clock_ok t ops && clock_ok (last_now t ops) rest.
Proof.
  revert t. induction ops as [|o ops IH]; intros t; simpl; auto.
  unfold last_now in *. simpl.
  destruct (op_now o) as [now|]; simpl; rewrite IH; auto.
  rewrite andb_assoc. reflexivity.
Qed.

Lemma stamped_later (t t' c u : string) :
  (t <=? t') = true -> stamped t c u -> stamped t' c u.
Proof. intros Ht [H1 H2]. split; auto. eapply leb_trans; eauto. Qed.

Lemma stamped_new (t : string) : stamped t t t.
Proof. split; apply leb_refl. Qed.

Lemma stamped_rewritten (t now c u : string) :
  (t <=? now) = true -> stamped t c u -> stamped now c now.
Proof.
  intros Ht [H1 H2]. split; [|apply leb_refl].
  eapply leb_trans; [exact H1|]. eapply leb_trans; eauto.
Qed.

Lemma Forall_filter_keep {A : Type} (P : A -> Prop) (p : A -> bool) (l : list A) :
  Forall P l -> Forall P (filter p l).
Proof.
  intros H. apply Forall_forall. intros x Hx.
  apply filter_In in Hx. destruct Hx as [Hx _].
  revert x Hx. apply Forall_forall. exact H.
Qed.

Lemma json_update_loop_stamped
      (t : string) (s s' : JSONStorage.store) (entry_id : string)
      (updated : Draft.t) (now : string) :
  (t <=? now) = true -> json_stamped t s ->
  JSONStorage.update_loop s entry_id updated now = Ok (Some s') ->
  json_stamped now s'.
Proof.
  intros Ht. revert s'. induction s as [|e s IH]; simpl; intros s' Hs H.
  - discriminate.
  - inversion Hs as [|? ? He Hs']; subst.
    destruct (Entry.id e =? entry_id).
    + destruct (Draft.date updated); [|discriminate].
      inversion H; subst. constructor.
      * simpl. eapply stamped_rewritten; eauto.
      * eapply Forall_impl; [|exact Hs'].
        intros a. apply stamped_later, Ht.
    + destruct (JSONStorage.update_loop s entry_id updated now) as [[l|]|x];
        try discriminate.
      inversion H; subst. constructor.
      * eapply stamped_later; eauto.
      * apply IH; auto.
Qed.

Lemma json_step_stamped (t : string) (s : JSONStorage.store) (o : op) :
  clock_ok t [o] = true -> json_stamped t s ->
  json_stamped (last_now t [o]) (json_step s o).
Proof.
  unfold last_now. intros Hc Hs.
  destruct o as [entry uuid now | entry_id updated now | entry_id];
    simpl in *.
  - rewrite andb_true_r in Hc.
    assert (json_stamped now s) as Hs'
        by (eapply Forall_impl; [|exact Hs]; intros a; apply stamped_later, Hc).
    unfold JSONStorage.add_entry.
    destruct (Draft.date entry); [|exact Hs'].
    apply Forall_app. split; [exact Hs'|].
    constructor; [apply stamped_new | constructor].
  - rewrite andb_true_r in Hc.
    assert (json_stamped now s) as Hs'
        by (eapply Forall_impl; [|exact Hs]; intros a; apply stamped_later, Hc).
    unfold JSONStorage.update_entry.
    destruct (JSONStorage.update_loop s entry_id updated now) as [[l|]|x] eqn:U;
      auto.
    eapply json_update_loop_stamped; eauto.
  - unfold JSONStorage.delete_entry.
    destruct (Nat.eqb _ _); simpl; auto.
    apply Forall_filter_keep, Hs.
Qed.

Lemma sqlite_step_stamped (t : string) (s : SQLiteStorage.store) (o : op) :
  clock_ok t [o] = true -> sqlite_stamped t s ->
  sqlite_stamped (last_now t [o]) (sqlite_step s o).
Proof.
  unfold last_now. intros Hc Hs.
  destruct o as [entry uuid now | entry_id updated now | entry_id];
    simpl in *.
  - rewrite andb_true_r in Hc.
    assert (sqlite_stamped now s) as Hs'
        by (eapply Forall_impl; [|exact Hs]; intros a; apply stamped_later, Hc).
    unfold SQLiteStorage.add_entry.
    destruct (Draft.date entry); [|exact Hs'].
    destruct (SQLiteStorage.has_id s _); [exact Hs'|].
    apply Forall_app. split; [exact Hs'|].
    constructor; [apply stamped_new | constructor].
  - rewrite andb_true_r in Hc.
    unfold SQLiteStorage.update_entry.
    destruct (Draft.date updated).
    + unfold sqlite_stamped. rewrite Forall_map.
      eapply Forall_impl; [|exact Hs].
      intros r Hr. destruct (Row.id r =? entry_id); simpl.
      * eapply stamped_rewritten; [exact Hc | exact Hr].
      * eapply stamped_later; [exact Hc | exact Hr].
    + eapply Forall_impl; [|exact Hs]. intros a. apply stamped_later, Hc.
  - apply Forall_filter_keep, Hs.
Qed.

Lemma last_now_cons (t : string) (o : op) (ops : list op) :
  last_now t (o :: ops) = last_now (last_now t [o]) ops.
Proof. reflexivity. Qed.

Lemma json_run_stamped (ops : list op) (t : string) (s : JSONStorage.store) :
  clock_ok t ops = true -> json_stamped t s ->
  json_stamped (last_now t ops) (fold_left json_step ops s).
Proof.
  revert t s. induction ops as [|o ops IH]; intros t s Hc Hs; [exact Hs|].
  change (o :: ops) with ([o] ++ ops)%list in Hc.
  rewrite clock_ok_app in Hc. apply andb_true_iff in Hc. destruct Hc as [Ho Hc].
  rewrite last_now_cons. simpl fold_left.
  apply IH; [exact Hc | apply json_step_stamped; assumption].
Qed.

Lemma sqlite_run_stamped (ops : list op) (t : string) (s : SQLiteStorage.store) :
  clock_ok t ops = true -> sqlite_stamped t s ->
  sqlite_stamped (last_now t ops) (fold_left sqlite_step ops s).
Proof.
  revert t s. induction ops as [|o ops IH]; intros t s Hc Hs; [exact Hs|].
  change (o :: ops) with ([o] ++ ops)%list in Hc.
  rewrite clock_ok_app in Hc. apply andb_true_iff in Hc. destruct Hc as [Ho Hc].
  rewrite last_now_cons. simpl fold_left.
  apply IH; [exact Hc | apply sqlite_step_stamped; assumption].
Qed.

(** C8, amended.  Start from the empty store and run any sequence of add,
    update and delete, read by a clock that never runs backwards.  Every
    entry of the document and every row of the table then has [created_at]
    no later than [updated_at]. *)
Theorem created_at_le_updated_at (ops : list op) :
  clock_ok "" ops = true ->
  Forall (fun r => (Row.created_at r <=? Row.updated_at r) = true) (sqlite_run ops)
  /\ Forall (fun e => (Entry.created_at e <=? Entry.updated_at e) = true)
            (json_run ops).
Proof.
  intros Hc. split.
  - eapply Forall_impl;
      [|apply (sqlite_run_stamped ops "" SQLiteStorage.empty Hc); constructor].
    intros r [H _]. exact H.
  - eapply Forall_impl;
      [|apply (json_run_stamped ops "" JSONStorage.empty Hc); constructor].
    intros e [H _]. exact H.
Qed.

Lemma created_at_le_updated_at_witness :
  Forall (fun r => (Row.created_at r <=? Row.updated_at r) = true)
         (sqlite_run scenario)
  /\ Forall (fun e => (Entry.created_at e <=? Entry.updated_at e) = true)
            (json_run scenario).
Proof. apply (created_at_le_updated_at scenario). reflexivity. Defined.

(** With a clock set back between an add and an update, the entry of either
    backend ends with [updated_at] before [created_at]: [update_entry]
    writes the time it reads without comparing it. *)
Lemma updated_at_before_created_at :
  map (fun r => (Row.created_at r, Row.updated_at r)) (sqlite_run clock_set_back)
  = [("2024-01-01T10:00:00", "2024-01-01T09:59:59")]
  /\ map (fun e => (Entry.created_at e, Entry.updated_at e)) (json_run clock_set_back)
     = [("2024-01-01T10:00:00", "2024-01-01T09:59:59")]
  /\ ~ Forall (fun r => (Row.created_at r <=? Row.updated_at r) = true)
              (sqlite_run clock_set_back)
  /\ ~ Forall (fun e => (Entry.created_at e <=? Entry.updated_at e) = true)
              (json_run clock_set_back).
Proof.
  split; [reflexivity|]. split; [reflexivity|].
  split; intros H; vm_compute in H; inversion H as [|x l Hx Hl];
    vm_compute in Hx; discriminate.
Qed.

(** ** Updating *)

Lemma json_update_loop_found
      (s : JSONStorage.store) (entry_id : string) (updated : Draft.t)
      (now date : string) (e : Entry.t) :
  Draft.date updated = Some date ->
  JSONStorage.get_entry s entry_id = Some e ->
  exists s',
    JSONStorage.update_loop s entry_id updated now = Ok (Some s')
    /\ JSONStorage.get_entry s' entry_id = Some (rewritten e date updated now)
    /\ length s' = length s.
Proof.
  intros Hd. unfold JSONStorage.get_entry.
  induction s as [|a s IH]; simpl; [discriminate|].
  destruct (Entry.id a =? entry_id) eqn:E.
  - intros H. inversion H; subst. rewrite Hd.
    eexists. split; [reflexivity|]. simpl. rewrite E. split; reflexivity.
  - intros H. destruct (IH H) as [s' [U [G L]]]. rewrite U.
    eexists. split; [reflexivity|]. simpl. rewrite E, L. split; auto.
Qed.

Lemma json_update_loop_missing
      (s : JSONStorage.store) (entry_id : string) (updated : Draft.t) (now : string) :
  JSONStorage.get_entry s entry_id = None ->
  JSONStorage.update_loop s entry_id updated now = Ok None.
Proof.
  unfold JSONStorage.get_entry.
  induction s as [|a s IH]; simpl; auto.
  destruct (Entry.id a =? entry_id); [discriminate|].
  intros H. rewrite (IH H). reflexivity.
Qed.

Lemma sqlite_update_found
      (s : SQLiteStorage.store) (entry_id : string) (updated : Draft.t)
      (now date : string) (e : Entry.t) :
  Draft.date updated = Some date ->
  tags_ok (get_default (Draft.tags updated) []) = true ->
  SQLiteStorage.get_entry s entry_id = Some e ->
  exists s',
    SQLiteStorage.update_entry s entry_id updated now = Ok (true, s')
    /\ SQLiteStorage.get_entry s' entry_id = Some (rewritten e date updated now)
    /\ length s' = length s.
Proof.
  intros Hd Ht. unfold SQLiteStorage.get_entry, SQLiteStorage.update_entry.
  rewrite Hd. intros G.
  destruct (find (fun r => Row.id r =? entry_id) s) as [r|] eqn:F;
    [|discriminate].
  inversion G; subst e. clear G.
  rewrite (proj2 (Nat.ltb_lt _ _) (find_some_filter _ _ _ F)).
  eexists. split; [reflexivity|]. split; [|apply length_map].
  induction s as [|a s IH]; simpl in *; [discriminate|].
  destruct (Row.id a =? entry_id) eqn:E.
  - inversion F; subst a. simpl. rewrite E. simpl.
    rewrite (row_to_entry_joined _ _ _ _ _ _ _ _ Ht). reflexivity.
  - rewrite E. apply IH, F.
Qed.

Lemma sqlite_update_missing
      (s : SQLiteStorage.store) (entry_id : string) (updated : Draft.t)
      (now date : string) :
  Draft.date updated = Some date ->
  SQLiteStorage.get_entry s entry_id = None ->
  SQLiteStorage.update_entry s entry_id updated now = Ok (false, s).
Proof.
  intros Hd. unfold SQLiteStorage.get_entry, SQLiteStorage.update_entry.
  rewrite Hd. intros G.
  destruct (find (fun r => Row.id r =? entry_id) s) as [r|] eqn:F;
    [discriminate|].
  rewrite (find_none_filter _ _ F).
  rewrite (find_none_map_if (fun r => Row.id r =? entry_id) _ s F).
  reflexivity.
Qed.

Lemma json_found_stamped (t : string) (s : JSONStorage.store)
      (entry_id : string) (e : Entry.t) :
  json_stamped t s -> JSONStorage.get_entry s entry_id = Some e ->
  (Entry.updated_at e <=? t) = true.
Proof.
  intros Hs G. apply find_some in G. destruct G as [Hin _].
  unfold json_stamped in Hs. rewrite Forall_forall in Hs.
  apply (Hs e Hin).
Qed.

Lemma sqlite_found_stamped (t : string) (s : SQLiteStorage.store)
      (entry_id : string) (e : Entry.t) :
  sqlite_stamped t s -> SQLiteStorage.get_entry s entry_id = Some e ->
  (Entry.updated_at e <=? t) = true.
Proof.
  unfold SQLiteStorage.get_entry. intros Hs G.
  destruct (find (fun r => Row.id r =? entry_id) s) as [r|] eqn:F;
    [|discriminate].
  inversion G; subst e. simpl.
  apply find_some in F. destruct F as [Hin _].
  unfold sqlite_stamped in Hs. rewrite Forall_forall in Hs.
  apply (Hs r Hin).
Qed.

(** C5, amended.  Run any sequence of operations from the empty store and
    then [update_entry], all read by a clock that never runs backwards, with
    fields that have a date.  If [get_entry] finds the id, the update
    returns true, the entry count is unchanged, and [get_entry] then gives
    the date, title, body, mood and tags of the fields, the old id and
    [created_at], and an [updated_at] that is the time of the update and no
    earlier than the old one; in the relational backend this is so when no
    tag of the fields holds a comma and the tags are not the single empty
    tag.  If [get_entry] does not find the id, the update returns false and
    the store is unchanged. *)
Theorem update_entry_semantics
        (ops : list op) (entry_id : string) (updated : Draft.t)
        (now date : string) :
  clock_ok "" (ops ++ [Update entry_id updated now]) = true ->
  Draft.date updated = Some date ->
  match SQLiteStorage.get_entry (sqlite_run ops) entry_id with
  | Some e =>
      tags_ok (get_default (Draft.tags updated) []) = true ->
      exists s',
        SQLiteStorage.update_entry (sqlite_run ops) entry_id updated now
        = Ok (true, s')
        /\ SQLiteStorage.get_entry s' entry_id
           = Some (rewritten e date updated now)
        /\ (Entry.updated_at e <=? now) = true
        /\ length s' = length (sqlite_run ops)
  | None =>
      SQLiteStorage.update_entry (sqlite_run ops) entry_id updated now
      = Ok (false, sqlite_run ops)
  end
  /\ match JSONStorage.get_entry (json_run ops) entry_id with
     | Some e =>
         exists s',
           JSONStorage.update_entry (json_run ops) entry_id updated now
           = Ok (true, s')
           /\ JSONStorage.get_entry s' entry_id
              = Some (rewritten e date updated now)
           /\ (Entry.updated_at e <=? now) = true
           /\ length s' = length (json_run ops)
     | None =>
         JSONStorage.update_entry (json_run ops) entry_id updated now
         = Ok (false, json_run ops)
     end.
Proof.
  intros Hc Hd.
  rewrite clock_ok_app in Hc. apply andb_true_iff in Hc. destruct Hc as [Hc Hn].
  simpl in Hn. rewrite andb_true_r in Hn.
  split.
  - destruct (SQLiteStorage.get_entry (sqlite_run ops) entry_id) as [e|] eqn:G.
    + intros Ht.
      destruct (sqlite_update_found _ _ _ now _ _ Hd Ht G) as [s' [U [G' L]]].
      exists s'. repeat split; auto.
      eapply leb_trans; [|exact Hn].
      eapply sqlite_found_stamped; [|exact G].
      apply (sqlite_run_stamped ops "" SQLiteStorage.empty Hc). constructor.
    + eapply sqlite_update_missing; eauto.
  - destruct (JSONStorage.get_entry (json_run ops) entry_id) as [e|] eqn:G.
    + destruct (json_update_loop_found _ _ _ now _ _ Hd G) as [s' [U [G' L]]].
      exists s'. unfold JSONStorage.update_entry. rewrite U.
      repeat split; auto.
      eapply leb_trans; [|exact Hn].
      eapply json_found_stamped; [|exact G].
      apply (json_run_stamped ops "" JSONStorage.empty Hc). constructor.
    + unfold JSONStorage.update_entry.
      rewrite (json_update_loop_missing _ _ _ _ G). reflexivity.
Qed.

Lemma update_entry_semantics_witness :
  (exists s',
      SQLiteStorage.update_entry (sqlite_run scenario_adds) "A" second_thoughts
                                 "2024-01-01T12:00:00"
      = Ok (true, s')
      /\ SQLiteStorage.get_entry s' "A"
         = Some (Entry.mk "A" "2024-01-02" "First" "" "sad" ["x"]
                          "2024-01-01T10:00:00" "2024-01-01T12:00:00")
      /\ ("2024-01-01T10:00:00" <=? "2024-01-01T12:00:00") = true
      /\ length s' = 2)
  /\ (exists s',
         JSONStorage.update_entry (json_run scenario_adds) "A" second_thoughts
                                  "2024-01-01T12:00:00"
         = Ok (true, s')
         /\ JSONStorage.get_entry s' "A"
            = Some (Entry.mk "A" "2024-01-02" "First" "" "sad" ["x"]
                             "2024-01-01T10:00:00" "2024-01-01T12:00:00")
         /\ ("2024-01-01T10:00:00" <=? "2024-01-01T12:00:00") = true
         /\ length s' = 2).
Proof.
  destruct (update_entry_semantics scenario_adds "A" second_thoughts
                                   "2024-01-01T12:00:00" "2024-01-02"
                                   eq_refl eq_refl)
    as [H1 H2].
  split; [exact (H1 eq_refl) | exact H2].
Defined.

(** After an update of a stored id with the tag [a,b], the relational
    backend gives the entry back with the two tags [a] and [b]. *)
Lemma sqlite_update_splits_tag :
  exists s',
    SQLiteStorage.update_entry (sqlite_run scenario_adds) "A" comma_fields
                               "2024-01-01T12:00:00"
    = Ok (true, s')
    /\ option_map Entry.tags (SQLiteStorage.get_entry s' "A") = Some ["a"; "b"]
    /\ option_map Entry.tags (SQLiteStorage.get_entry s' "A")
       <> Draft.tags comma_fields.
Proof.
  eexists. split; [reflexivity|]. split; [reflexivity|].
  vm_compute. discriminate.
Qed.

(** * Further properties of the storage backends *)

(** ** Ids of the table *)

Lemma sqlite_step_distinct (s : SQLiteStorage.store) (o : op) :
  NoDup (map Row.id s) -> NoDup (map Row.id (sqlite_step s o)).
Proof.
  intros Hnd. destruct o as [entry uuid now | entry_id updated now | entry_id].
  - unfold sqlite_step, step. simpl. unfold SQLiteStorage.add_entry.
    destruct (Draft.date entry) as [date|]; [|exact Hnd].
    destruct (SQLiteStorage.has_id s _) eqn:Hid; [exact Hnd|].
    rewrite map_app. simpl.
    apply NoDup_app; [exact Hnd | repeat constructor; simpl; tauto |].
    intros x Hx [<-|[]]. revert Hx. apply has_id_false_not_in, Hid.
  - unfold sqlite_step, step. simpl. unfold SQLiteStorage.update_entry.
    destruct (Draft.date updated) as [date|]; [|exact Hnd].
    rewrite map_map. erewrite map_ext; [exact Hnd|].
    intros r. simpl. destruct (Row.id r =? entry_id); reflexivity.
  - apply distinct_ids_filter, Hnd.
Qed.

(** X1. Whatever operations have run on the relational backend, with
    whatever drafts, ids and timestamps, no two rows of the table have the
    same id. *)
Theorem sqlite_ids_distinct (ops : list op) :
  NoDup (map Row.id (sqlite_run ops)).
Proof.
  unfold sqlite_run.
  assert (forall s, NoDup (map Row.id s) ->
                    NoDup (map Row.id (fold_left sqlite_step ops s))) as H.
  { induction ops as [|o ops IH]; intros s Hs; simpl; auto.
    apply IH, sqlite_step_distinct, Hs. }
  apply H. constructor.
Qed.

(** ** Listing *)

Lemma pair_ltb_false_listed (a b : Entry.t) :
  pair_ltb (Entry.date a, Entry.created_at a) (Entry.date b, Entry.created_at b)
  = false ->
  listed_order a b.
Proof.
  unfold pair_ltb, listed_order. simpl. intros H.
  apply orb_false_iff in H. destruct H as [Hlt Hand].
  destruct (String.eqb_spec (Entry.date a) (Entry.date b)) as [E|E].
  - rewrite E, ltb_irrefl, String.eqb_refl. simpl.
    simpl in Hand. apply ltb_false_leb. exact Hand.
  - destruct (Entry.date b <? Entry.date a) eqn:L; [reflexivity|].
    exfalso. apply E. apply String.leb_antisym.
    + apply ltb_false_leb. exact L.
    + apply ltb_false_leb. exact Hlt.
Qed.

Lemma json_list_entries_sorted (s : JSONStorage.store) :
  Permutation (JSONStorage.list_entries s) s
  /\ Sorted listed_order (JSONStorage.list_entries s).
Proof.
  unfold JSONStorage.list_entries. split; [apply sorted_desc_perm|].
  eapply Sorted_weaken; [|apply sorted_desc_sorted].
  - intros a b. apply pair_ltb_false_listed.
  - intros a b. apply pair_ltb_asym.
Qed.

(** X2. [list_entries] of either backend returns every stored entry, each
    as often as it is stored, latest date first and, within a date, latest
    [created_at] first. *)
Theorem list_entries_complete_and_ordered
        (s1 : SQLiteStorage.store) (s2 : JSONStorage.store) :
  (Permutation (SQLiteStorage.list_entries s1)
               (map SQLiteStorage._row_to_entry s1)
   /\ Sorted listed_order (SQLiteStorage.list_entries s1))
  /\ (Permutation (JSONStorage.list_entries s2) s2
      /\ Sorted listed_order (JSONStorage.list_entries s2)).
Proof.
  split; [rewrite list_entries_decoded|]; apply json_list_entries_sorted.
Qed.

(** ** Looking up *)

(** X3. [get_entry] of either backend returns a stored entry that has the id
    asked for, and returns nothing only when no stored entry has that id. *)
Theorem get_entry_finds_the_id
        (s1 : SQLiteStorage.store) (s2 : JSONStorage.store) (entry_id : string) :
  match SQLiteStorage.get_entry s1 entry_id with
  | Some e =>
      Entry.id e = entry_id /\ In e (map SQLiteStorage._row_to_entry s1)
  | None =>
      forall e, In e (map SQLiteStorage._row_to_entry s1) -> Entry.id e <> entry_id
  end
  /\ match JSONStorage.get_entry s2 entry_id with
     | Some e => Entry.id e = entry_id /\ In e s2
     | None => forall e, In e s2 -> Entry.id e <> entry_id
     end.
Proof.
  split.
  - unfold SQLiteStorage.get_entry.
    destruct (find (fun r => Row.id r =? entry_id) s1) as [r|] eqn:F; simpl.
    + apply find_some in F. destruct F as [Hin E].
      split; [apply String.eqb_eq, E | apply in_map, Hin].
    + intros e Hin E. apply in_map_iff in Hin. destruct Hin as [r [<- Hin]].
      pose proof (find_none _ _ F r Hin) as N. simpl in N, E.
      apply String.eqb_neq in N. contradiction.
  - unfold JSONStorage.get_entry.
    destruct (find (fun e => Entry.id e =? entry_id) s2) as [e|] eqn:F.
    + apply find_some in F. destruct F as [Hin E].
      split; [apply String.eqb_eq, E | exact Hin].
    + intros e Hin E. pose proof (find_none _ _ F e Hin) as N.
      apply String.eqb_neq in N. contradiction.
Qed.

(** ** What an operation leaves alone *)

Section Frame.

Context {A : Type}.
Variable id_of : A -> string.

Lemma find_app_other (l : list A) (x : A) (j : string) :
  id_of x <> j ->
  find (fun a => id_of a =? j) (l ++ [x]) = find (fun a => id_of a =? j) l.
Proof.
  intros Hx. induction l as [|a l IH]; simpl.
  - apply String.eqb_neq in Hx. rewrite Hx. reflexivity.
  - destruct (id_of a =? j); auto.
Qed.

Lemma find_app_found (l : list A) (x a : A) (j : string) :
  find (fun a => id_of a =? j) l = Some a ->
  find (fun a => id_of a =? j) (l ++ [x]) = Some a.
Proof.
  induction l as [|b l IH]; simpl; [discriminate|].
  destruct (id_of b =? j); auto.
Qed.

Lemma find_filter_other (l : list A) (i j : string) :
  i <> j ->
  find (fun a => id_of a =? j) (filter (fun a => negb (id_of a =? i)) l)
  = find (fun a => id_of a =? j) l.
Proof.
  intros Hij. induction l as [|a l IH]; simpl; auto.
  destruct (String.eqb_spec (id_of a) i) as [E|E]; simpl.
  - destruct (String.eqb_spec (id_of a) j) as [E'|_]; [congruence | exact IH].
  - destruct (id_of a =? j); auto.
Qed.

Lemma find_map_other (l : list A) (f : A -> A) (i j : string) :
  (forall a, id_of (f a) = id_of a) -> i <> j ->
  find (fun a => id_of a =? j)
       (map (fun a => if id_of a =? i then f a else a) l)
  = find (fun a => id_of a =? j) l.
Proof.
  intros Hf Hij. induction l as [|a l IH]; simpl; auto.
  destruct (String.eqb_spec (id_of a) i) as [E|E].
  - rewrite Hf. destruct (String.eqb_spec (id_of a) j) as [E'|_];
      [congruence | exact IH].
  - destruct (id_of a =? j); auto.
Qed.

End Frame.

Lemma json_update_loop_other
      (s s' : JSONStorage.store) (entry_id j : string) (updated : Draft.t)
      (now : string) :
  entry_id <> j ->
  JSONStorage.update_loop s entry_id updated now = Ok (Some s') ->
  JSONStorage.get_entry s' j = JSONStorage.get_entry s j.
Proof.
  intros Hij. unfold JSONStorage.get_entry.
  revert s'. induction s as [|e s IH]; simpl; intros s' H; [discriminate|].
  destruct (String.eqb_spec (Entry.id e) entry_id) as [E|E].
  - destruct (Draft.date updated); [|discriminate].
    inversion H; subst s'. simpl.
    destruct (String.eqb_spec (Entry.id e) j) as [E'|_]; [congruence|].
    reflexivity.
  - destruct (JSONStorage.update_loop s entry_id updated now) as [[l|]|x];
      try discriminate.
    inversion H; subst s'. simpl.
    destruct (Entry.id e =? j); [reflexivity | apply IH; reflexivity].
Qed.

Lemma sqlite_step_frame (s : SQLiteStorage.store) (o : op) (j : string) :
  op_id o <> j ->
  SQLiteStorage.get_entry (sqlite_step s o) j = SQLiteStorage.get_entry s j.
Proof.
  intros Hj. destruct o as [entry uuid now | entry_id updated now | entry_id];
    simpl in Hj; unfold sqlite_step, step; simpl.
  - unfold SQLiteStorage.add_entry.
    destruct (Draft.date entry) as [date|]; [|reflexivity].
    destruct (SQLiteStorage.has_id s _); [reflexivity|].
    unfold SQLiteStorage.get_entry.
    rewrite (find_app_other Row.id); [reflexivity | exact Hj].
  - unfold SQLiteStorage.update_entry.
    destruct (Draft.date updated) as [date|]; [|reflexivity].
    unfold SQLiteStorage.get_entry.
    rewrite (find_map_other Row.id); auto.
  - unfold SQLiteStorage.get_entry.
    rewrite (find_filter_other Row.id); auto.
Qed.

Lemma json_step_frame (s : JSONStorage.store) (o : op) (j : string) :
  op_id o <> j ->
  JSONStorage.get_entry (json_step s o) j = JSONStorage.get_entry s j.
Proof.
  intros Hj. destruct o as [entry uuid now | entry_id updated now | entry_id];
    simpl in Hj; unfold json_step, step; simpl.
  - unfold JSONStorage.add_entry.
    destruct (Draft.date entry) as [date|]; [|reflexivity].
    unfold JSONStorage.get_entry.
    rewrite (find_app_other Entry.id); [reflexivity | exact Hj].
  - unfold JSONStorage.update_entry.
    destruct (JSONStorage.update_loop s entry_id updated now) as [[l|]|x] eqn:U;
      auto.
    eapply json_update_loop_other; eauto.
  - unfold JSONStorage.delete_entry.
    destruct (Nat.eqb _ _); simpl; [reflexivity|].
    unfold JSONStorage.get_entry.
    rewrite (find_filter_other Entry.id); auto.
Qed.

(** X4. An add, update or delete changes what [get_entry] returns for no id
    other than the one it acts on, in either backend. *)
Theorem step_leaves_other_ids
        (s1 : SQLiteStorage.store) (s2 : JSONStorage.store) (o : op) (j : string) :
  op_id o <> j ->
  SQLiteStorage.get_entry (sqlite_step s1 o) j = SQLiteStorage.get_entry s1 j
  /\ JSONStorage.get_entry (json_step s2 o) j = JSONStorage.get_entry s2 j.
Proof.
  intros Hj. split.
  - apply sqlite_step_frame, Hj.
  - apply json_step_frame, Hj.
Qed.

Lemma step_leaves_other_ids_witness :
  SQLiteStorage.get_entry (sqlite_step (sqlite_run scenario_adds) (Delete "B")) "A"
  = SQLiteStorage.get_entry (sqlite_run scenario_adds) "A"
  /\ JSONStorage.get_entry (json_step (json_run scenario_adds) (Delete "B")) "A"
     = JSONStorage.get_entry (json_run scenario_adds) "A".
Proof.
  apply (step_leaves_other_ids (sqlite_run scenario_adds) (json_run scenario_adds)
                               (Delete "B") "A").
  discriminate.
Defined.

(** X5. When the document backend adds a draft under an id that is stored
    already, the add succeeds and the document grows by one entry, but
    [get_entry] of that id keeps returning the entry stored before. *)
Theorem json_add_stored_id_is_shadowed
        (s : JSONStorage.store) (entry : Draft.t) (uuid now date : string)
        (e : Entry.t) :
  Draft.date entry = Some date ->
  JSONStorage.get_entry s (get_default (Draft.id entry) uuid) = Some e ->
  exists s',
    JSONStorage.add_entry s entry uuid now
    = Ok (get_default (Draft.id entry) uuid, s')
    /\ length s' = S (length s)
    /\ JSONStorage.get_entry s' (get_default (Draft.id entry) uuid) = Some e.
Proof.
  intros Hd G. unfold JSONStorage.add_entry. rewrite Hd.
  eexists. split; [reflexivity|]. split.
  - rewrite length_app. simpl. lia.
  - unfold JSONStorage.get_entry in *.
    apply (find_app_found Entry.id). exact G.
Qed.

Lemma json_add_stored_id_is_shadowed_witness :
  exists s',
    JSONStorage.add_entry (json_run scenario) first_draft_again
                          "B" "2024-02-01T10:00:00"
    = Ok ("A", s')
    /\ length s' = 2
    /\ option_map Entry.title (JSONStorage.get_entry s' "A") = Some "First".
Proof.
  destruct (json_add_stored_id_is_shadowed
              (json_run scenario) first_draft_again "B" "2024-02-01T10:00:00"
              "2024-02-01"
              (Entry.mk "A" "2024-01-02" "First" "" "sad" ["x"]
                        "2024-01-01T10:00:00" "2024-01-01T12:00:00")
              eq_refl eq_refl)
    as [s' [H1 [H2 H3]]].
  exists s'. split; [exact H1|]. split; [exact H2|].
  change (get_default (Draft.id first_draft_again) "B") with "A" in H3.
  rewrite H3. reflexivity.
Defined.

(** ** Updating without a date *)

(** X6. With fields that have no date, [update_entry] of the relational
    backend raises [KeyError] whether or not the id is stored; the document
    backend raises it only when the id is stored, and otherwise returns
    false and leaves the document as it is. *)
Theorem update_entry_without_date
        (s1 : SQLiteStorage.store) (s2 : JSONStorage.store)
        (entry_id : string) (updated : Draft.t) (now : string) :
  Draft.date updated = None ->
  SQLiteStorage.update_entry s1 entry_id updated now = Raise (KeyError "date")
  /\ JSONStorage.update_entry s2 entry_id updated now
     = if JSONStorage.has_id s2 entry_id
       then Raise (KeyError "date")
       else Ok (false, s2).
Proof.
  intros Hd. split.
  - unfold SQLiteStorage.update_entry. rewrite Hd. reflexivity.
  - unfold JSONStorage.update_entry, JSONStorage.has_id.
    induction s2 as [|e s IH]; simpl; [reflexivity|].
    rewrite Hd. destruct (Entry.id e =? entry_id); simpl; [reflexivity|].
    destruct (JSONStorage.update_loop s entry_id updated now) as [[l|]|x];
      destruct (existsb _ s); try discriminate; try reflexivity.
    inversion IH. reflexivity.
Qed.

Lemma update_entry_without_date_witness :
  SQLiteStorage.update_entry SQLiteStorage.empty "A"
    (Draft.mk None None (Some "t") None None None) "2024-01-01T12:00:00"
  = Raise (KeyError "date")
  /\ JSONStorage.update_entry JSONStorage.empty "A"
       (Draft.mk None None (Some "t") None None None) "2024-01-01T12:00:00"
     = Ok (false, JSONStorage.empty).
Proof.
  exact (update_entry_without_date SQLiteStorage.empty JSONStorage.empty "A"
           (Draft.mk None None (Some "t") None None None)
           "2024-01-01T12:00:00" eq_refl).
Defined.

(** ** Deleting, in full *)

(** X7. [delete_entry] of either backend returns whether the id was stored
    and leaves exactly the entries of every other id, in the order they
    had; in the document backend this removes every entry stored under the
    id, however many there are. *)
Theorem delete_entry_keeps_the_others
        (s1 : SQLiteStorage.store) (s2 : JSONStorage.store) (entry_id : string) :
  SQLiteStorage.delete_entry s1 entry_id
  = (SQLiteStorage.has_id s1 entry_id,
     filter (fun r => negb (Row.id r =? entry_id)) s1)
  /\ JSONStorage.delete_entry s2 entry_id
     = (JSONStorage.has_id s2 entry_id,
        filter (fun e => negb (Entry.id e =? entry_id)) s2).
Proof.
  split.
  - unfold SQLiteStorage.delete_entry, SQLiteStorage.has_id. f_equal.
    induction s1 as [|r s IH]; simpl; auto.
    destruct (Row.id r =? entry_id); simpl; auto.
  - unfold JSONStorage.delete_entry, JSONStorage.has_id.
    destruct (find (fun e => Entry.id e =? entry_id) s2) as [e|] eqn:F.
    + pose proof (find_some_filter_neg _ _ _ F) as Hlt.
      destruct (Nat.eqb_spec
                  (length (filter (fun e0 => negb (Entry.id e0 =? entry_id)) s2))
                  (length s2)) as [E|_]; [lia|].
      f_equal. destruct (existsb _ s2) eqn:X; auto.
      apply find_none_existsb in X. congruence.
    + rewrite (find_none_filter_neg _ _ F), Nat.eqb_refl.
      apply find_none_existsb in F. rewrite F. reflexivity.
Qed.

(** ** The two backends, query by query *)

Lemma json_run_decoded (ops : list op) :
  replay_ok JSONStorage.empty ops = true ->
  json_run ops = map SQLiteStorage._row_to_entry (sqlite_run ops).
Proof.
  intros Hok. unfold json_run, sqlite_run.
  apply (run_decoded ops SQLiteStorage.empty); [constructor | exact Hok].
Qed.

(** X8. Replay one sequence of operations against both backends, every add
    under an id not stored at that moment and every tag list free of commas
    and not the single empty tag.  Then [get_entry] returns the same in
    both for every id, and [get_entries_by_date] of the relational backend
    is that of the document backend sorted newest first. *)
Theorem get_entry_cross_backend (ops : list op) (entry_id date_str : string) :
  replay_ok JSONStorage.empty ops = true ->
  SQLiteStorage.get_entry (sqlite_run ops) entry_id
  = JSONStorage.get_entry (json_run ops) entry_id
  /\ SQLiteStorage.get_entries_by_date (sqlite_run ops) date_str
     = sorted_desc (fun a b => Entry.created_at a <? Entry.created_at b)
                   (JSONStorage.get_entries_by_date (json_run ops) date_str).
Proof.
  intros Hok. rewrite (json_run_decoded ops Hok). split.
  - unfold SQLiteStorage.get_entry, JSONStorage.get_entry.
    induction (sqlite_run ops) as [|r s IH]; simpl; auto.
    destruct (Row.id r =? entry_id); auto.
  - unfold SQLiteStorage.get_entries_by_date, JSONStorage.get_entries_by_date.
    rewrite (sorted_desc_map _ (fun a b => Entry.created_at a <? Entry.created_at b)
                             SQLiteStorage._row_to_entry)
      by reflexivity.
    f_equal. apply map_filter_commute. reflexivity.
Qed.

Lemma get_entry_cross_backend_witness :
  SQLiteStorage.get_entry (sqlite_run scenario) "A"
  = JSONStorage.get_entry (json_run scenario) "A"
  /\ SQLiteStorage.get_entries_by_date (sqlite_run scenario) "2024-01-02"
     = sorted_desc (fun a b => Entry.created_at a <? Entry.created_at b)
                   (JSONStorage.get_entries_by_date (json_run scenario) "2024-01-02").
Proof.
  apply (get_entry_cross_backend scenario "A" "2024-01-02"). reflexivity.
Defined.

(** X9. Under the same condition on the operations, on ASCII text without
    NUL (every title, body and tags column of the table), and for a
    non-empty ASCII keyword that holds none of [%], [_], [,] and NUL and
    gives a pattern within the length [LIKE] accepts, [search_entries]
    returns the same sequence of entries in both backends, ties included. *)
Theorem search_entries_cross_backend (ops : list op) (kw : string) :
  replay_ok JSONStorage.empty ops = true ->
  Forall (fun r => plain_row r = true) (sqlite_run ops) ->
  kw <> "" -> Text.is_ascii kw = true ->
  Text.no_wildcard kw = true -> Text.no_comma kw = true ->
  Text.no_nul kw = true -> within_like_limit kw = true ->
  SQLiteStorage.search_entries (sqlite_run ops) kw
  = JSONStorage.search_entries (json_run ops) kw.
Proof.
  intros Hok Hrows Hne Hascii Hw Hc Hn Hlimit.
  rewrite (json_run_decoded ops Hok).
  apply sqlite_search_as_json; assumption.
Qed.

Lemma search_entries_cross_backend_witness :
  SQLiteStorage.search_entries (sqlite_run work_drafts) "WORK"
  = JSONStorage.search_entries (json_run work_drafts) "WORK".
Proof.
  apply (search_entries_cross_backend work_drafts "WORK");
    try reflexivity; [repeat constructor | discriminate].
Defined.

(** ** Keywords that match everything *)

Lemma contains_nil (s : string) : Text.contains "" s = true.
Proof. destruct s; reflexivity. Qed.

Lemma like_percents (s : string) :
  Text.like "%%" s = true /\ Text.like "%%%" s = true.
Proof.
  unfold Text.like.
  change (Text.until_nul "%%") with "%%".
  change (Text.until_nul "%%%") with "%%%".
  generalize (Text.until_nul s) as t. intros t.
  assert (Text.like_chars "%%" t = true) as H2.
  { induction t as [|c t IH]; [reflexivity|].
    rewrite TextFacts.like_percent, TextFacts.like_any. reflexivity. }
  split; [exact H2|].
  induction t as [|c t IH]; [reflexivity|].
  rewrite TextFacts.like_percent, H2. reflexivity.
Qed.

Lemma filter_all {A : Type} (p : A -> bool) (l : list A) :
  (forall a, p a = true) -> filter p l = l.
Proof.
  intros H. induction l as [|a l IH]; simpl; auto.
  rewrite H, IH. reflexivity.
Qed.

(** X10. The empty keyword matches every entry: [search_entries] of either
    backend then returns the whole store, ordered by date.  In the
    relational backend the keyword [%] does the same, whatever the entries
    hold. *)
Theorem search_entries_match_all
        (s1 : SQLiteStorage.store) (s2 : JSONStorage.store) :
  Permutation (SQLiteStorage.search_entries s1 "")
              (map SQLiteStorage._row_to_entry s1)
  /\ Permutation (JSONStorage.search_entries s2 "") s2
  /\ Permutation (SQLiteStorage.search_entries s1 "%")
                 (map SQLiteStorage._row_to_entry s1).
Proof.
  split; [|split].
  - unfold SQLiteStorage.search_entries.
    apply Permutation_map. eapply perm_trans; [apply sorted_desc_perm|].
    rewrite filter_all; [apply Permutation_refl|].
    intros r. change ("%" ++ "" ++ "%") with "%%".
    rewrite (proj1 (like_percents _)). reflexivity.
  - unfold JSONStorage.search_entries.
    eapply perm_trans; [apply sorted_desc_perm|].
    rewrite filter_all; [apply Permutation_refl|].
    intros e. unfold JSONStorage.matches. simpl Text.lower.
    rewrite contains_nil. reflexivity.
  - unfold SQLiteStorage.search_entries.
    apply Permutation_map. eapply perm_trans; [apply sorted_desc_perm|].
    rewrite filter_all; [apply Permutation_refl|].
    intros r. change ("%" ++ "%" ++ "%") with "%%%".
    rewrite (proj2 (like_percents _)). reflexivity.
Qed.

(** ** What never changes for an id *)

Lemma find_map_same {A : Type} (p : A -> bool) (f : A -> A) (l : list A) :
  (forall a, p (f a) = p a) ->
  find p (map (fun a => if p a then f a else a) l) = option_map f (find p l).
Proof.
  intros Hf. induction l as [|a l IH]; simpl; auto.
  destruct (p a) eqn:E.
  - rewrite Hf, E. reflexivity.
  - rewrite E. exact IH.
Qed.

Lemma sqlite_step_same_id (s : SQLiteStorage.store) (o : op) (e : Entry.t) :
  SQLiteStorage.get_entry s (op_id o) = Some e ->
  match SQLiteStorage.get_entry (sqlite_step s o) (op_id o) with
  | Some e' =>
      Entry.id e' = Entry.id e /\ Entry.created_at e' = Entry.created_at e
  | None => True
  end.
Proof.
  intros G. destruct o as [entry uuid now | entry_id updated now | entry_id];
    unfold sqlite_step, step; simpl in *.
  - unfold SQLiteStorage.add_entry.
    assert (SQLiteStorage.has_id s (get_default (Draft.id entry) uuid) = true) as Hid.
    { unfold SQLiteStorage.get_entry in G. unfold SQLiteStorage.has_id.
      destruct (existsb _ s) eqn:X; auto.
      apply find_none_existsb in X. rewrite X in G. discriminate. }
    rewrite Hid. destruct (Draft.date entry); rewrite G; auto.
  - unfold SQLiteStorage.update_entry.
    destruct (Draft.date updated) as [date|]; [|rewrite G; auto].
    unfold SQLiteStorage.get_entry in *.
    rewrite (find_map_same (fun r => Row.id r =? entry_id)) by reflexivity.
    destruct (find (fun r => Row.id r =? entry_id) s) as [r|]; [|discriminate].
    inversion G; subst e. simpl. auto.
  - unfold SQLiteStorage.get_entry. rewrite find_filter_neg. exact I.
Qed.

Lemma json_step_same_id (s : JSONStorage.store) (o : op) (e : Entry.t) :
  JSONStorage.get_entry s (op_id o) = Some e ->
  match JSONStorage.get_entry (json_step s o) (op_id o) with
  | Some e' =>
      Entry.id e' = Entry.id e /\ Entry.created_at e' = Entry.created_at e
  | None => True
  end.
Proof.
  intros G. destruct o as [entry uuid now | entry_id updated now | entry_id];
    unfold json_step, step; simpl in *.
  - unfold JSONStorage.add_entry.
    destruct (Draft.date entry) as [date|]; [|rewrite G; auto].
    unfold JSONStorage.get_entry in *.
    rewrite (find_app_found Entry.id _ _ _ _ G). auto.
  - unfold JSONStorage.update_entry.
    destruct (Draft.date updated) as [date|] eqn:Hd.
    + destruct (json_update_loop_found s entry_id updated now date e Hd G)
        as [s' [U [G' _]]].
      rewrite U, G'. simpl. auto.
    + destruct (json_update_loop_no_date s entry_id updated now Hd)
        as [-> | [x ->]]; rewrite G; auto.
  - unfold JSONStorage.delete_entry.
    destruct (Nat.eqb _ _); simpl; [rewrite G; auto|].
    unfold JSONStorage.get_entry. rewrite find_filter_neg. exact I.
Qed.

(** X11. As long as [get_entry] finds an id, no add, update or delete,
    whatever its arguments, changes the [id] or the [created_at] of the
    entry it returns, in either backend. *)
Theorem step_keeps_id_and_created_at
        (s1 : SQLiteStorage.store) (s2 : JSONStorage.store) (o : op)
        (entry_id : string) :
  match SQLiteStorage.get_entry s1 entry_id,
        SQLiteStorage.get_entry (sqlite_step s1 o) entry_id with
  | Some e, Some e' =>
      Entry.id e' = Entry.id e /\ Entry.created_at e' = Entry.created_at e
  | _, _ => True
  end
  /\ match JSONStorage.get_entry s2 entry_id,
           JSONStorage.get_entry (json_step s2 o) entry_id with
     | Some e, Some e' =>
         Entry.id e' = Entry.id e /\ Entry.created_at e' = Entry.created_at e
     | _, _ => True
     end.
Proof.
  destruct (string_dec (op_id o) entry_id) as [E|N].
  - subst entry_id. split.
    + destruct (SQLiteStorage.get_entry s1 (op_id o)) as [e|] eqn:G; [|exact I].
      apply sqlite_step_same_id, G.
    + destruct (JSONStorage.get_entry s2 (op_id o)) as [e|] eqn:G; [|exact I].
      apply json_step_same_id, G.
  - pose proof (sqlite_step_frame s1 o entry_id N) as H1.
    pose proof (json_step_frame s2 o entry_id N) as H2. split.
    + revert H1. generalize (SQLiteStorage.get_entry (sqlite_step s1 o) entry_id).
      intros g ->. destruct (SQLiteStorage.get_entry s1 entry_id); auto.
    + revert H2. generalize (JSONStorage.get_entry (json_step s2 o) entry_id).
      intros g ->. destruct (JSONStorage.get_entry s2 entry_id); auto.
Qed.

(** ** The order of the document *)

Section KeyOrder.

Context {A : Type}.
Variable key : A -> string.

(** Ascending by [key]. *)
Let asc (a b : A) : Prop := (key a <=? key b) = true.

Lemma asc_snoc (l : list A) (y : A) :
  StronglySorted asc l -> Forall (fun x => asc x y) l ->
  StronglySorted asc (l ++ [y]).
Proof.
  induction 1 as [|a l Hs IH Ha]; intros Hy; simpl.
  - repeat constructor.
  - inversion Hy; subst. constructor; [apply IH; assumption|].
    apply Forall_app. split; [exact Ha | constructor; auto].
Qed.

Lemma asc_filter (p : A -> bool) (l : list A) :
  StronglySorted asc l -> StronglySorted asc (filter p l).
Proof.
  induction 1 as [|a l Hs IH Ha]; simpl; [constructor|].
  destruct (p a); [|exact IH].
  constructor; [exact IH | apply Forall_filter_keep, Ha].
Qed.

Lemma asc_same_keys (l l' : list A) :
  map key l' = map key l -> StronglySorted asc l -> StronglySorted asc l'.
Proof.
  revert l'. induction l as [|a l IH]; intros [|a' l'] E Hs;
    try discriminate; [constructor|].
  simpl in E. inversion E as [[Ea El]]. inversion Hs as [|? ? Hs' Ha]; subst.
  constructor; [apply IH; assumption|].
  apply Forall_forall. intros x' Hx'.
  assert (In (key x') (map key l)) as Hin
      by (rewrite <- El; apply in_map, Hx').
  apply in_map_iff in Hin. destruct Hin as [x [Ex Hx]].
  rewrite Forall_forall in Ha. specialize (Ha x Hx).
  unfold asc in *. rewrite Ea, <- Ex. exact Ha.
Qed.

End KeyOrder.

Lemma json_update_loop_created_at
      (s s' : JSONStorage.store) (entry_id : string) (updated : Draft.t)
      (now : string) :
  JSONStorage.update_loop s entry_id updated now = Ok (Some s') ->
  map Entry.created_at s' = map Entry.created_at s.
Proof.
  revert s'. induction s as [|e s IH]; simpl; intros s' H; [discriminate|].
  destruct (Entry.id e =? entry_id).
  - destruct (Draft.date updated); [|discriminate].
    inversion H; subst s'. reflexivity.
  - destruct (JSONStorage.update_loop s entry_id updated now) as [[l|]|x];
      try discriminate.
    inversion H; subst s'. simpl. rewrite (IH l); reflexivity.
Qed.

Lemma json_step_in_creation_order (t : string) (s : JSONStorage.store) (o : op) :
  clock_ok t [o] = true -> json_stamped t s ->
  StronglySorted oldest_first s ->
  StronglySorted oldest_first (json_step s o).
Proof.
  intros Hc Hst Hs.
  destruct o as [entry uuid now | entry_id updated now | entry_id];
    unfold json_step, step; simpl in *.
  - rewrite andb_true_r in Hc. unfold JSONStorage.add_entry.
    destruct (Draft.date entry); [|exact Hs].
    apply (asc_snoc Entry.created_at); [exact Hs|].
    eapply Forall_impl; [|exact Hst].
    intros e [H1 H2]. simpl.
    eapply leb_trans; [exact H1|]. eapply leb_trans; eauto.
  - unfold JSONStorage.update_entry.
    destruct (JSONStorage.update_loop s entry_id updated now) as [[l|]|x] eqn:U;
      auto.
    eapply (asc_same_keys Entry.created_at); [|exact Hs].
    eapply json_update_loop_created_at, U.
  - unfold JSONStorage.delete_entry.
    destruct (Nat.eqb _ _); simpl; auto.
    apply (asc_filter Entry.created_at), Hs.
Qed.

Lemma json_run_in_creation_order (ops : list op) (t : string) (s : JSONStorage.store) :
  clock_ok t ops = true -> json_stamped t s ->
  StronglySorted oldest_first s ->
  StronglySorted oldest_first (fold_left json_step ops s).
Proof.
  revert t s. induction ops as [|o ops IH]; intros t s Hc Hst Hs; [exact Hs|].
  change (o :: ops) with ([o] ++ ops)%list in Hc.
  rewrite clock_ok_app in Hc. apply andb_true_iff in Hc. destruct Hc as [Ho Hc].
  simpl fold_left.
  apply (IH (last_now t [o])); [exact Hc | |].
  - apply json_step_stamped; assumption.
  - eapply json_step_in_creation_order; eauto.
Qed.

(** X12. Start from the empty document and run any sequence of add, update
    and delete, read by a clock that never runs backwards.  The document
    then holds its entries in the order they were created, so
    [get_entries_by_date] of the document backend returns the entries of a
    date oldest first, for every date. *)
Theorem json_get_entries_by_date_in_creation_order (ops : list op) (d : string) :
  clock_ok "" ops = true ->
  Sorted oldest_first (json_run ops)
  /\ Sorted oldest_first (JSONStorage.get_entries_by_date (json_run ops) d).
Proof.
  intros Hc.
  assert (StronglySorted oldest_first (json_run ops)) as H.
  { apply (json_run_in_creation_order ops "" JSONStorage.empty Hc);
      constructor. }
  split; apply StronglySorted_Sorted; [exact H|].
  unfold JSONStorage.get_entries_by_date.
  apply (asc_filter Entry.created_at), H.
Qed.

Lemma json_get_entries_by_date_in_creation_order_witness :
  Sorted oldest_first (json_run same_day_drafts)
  /\ Sorted oldest_first
       (JSONStorage.get_entries_by_date (json_run same_day_drafts) "2024-01-01").
Proof.
  apply (json_get_entries_by_date_in_creation_order same_day_drafts "2024-01-01").
  reflexivity.
Defined.

(** * Properties of the helper functions *)

(** ** File names *)

Module HelperFacts.
Import Helper.

Lemma keep_chars_all (p : ascii -> bool) (s : string) :
  forallb p (list_ascii_of_string (keep_chars p s)) = true.
Proof.
  induction s as [|c s IH]; simpl; auto.
  destruct (p c) eqn:E; simpl; [rewrite E|]; exact IH.
Qed.

Lemma keep_chars_id (p : ascii -> bool) (s : string) :
  forallb p (list_ascii_of_string s) = true -> keep_chars p s = s.
Proof.
  induction s as [|c s IH]; simpl; auto.
  intros H. apply andb_true_iff in H. destruct H as [Hc Hs].
  rewrite Hc, (IH Hs). reflexivity.
Qed.

Lemma rstrip_all (p : ascii -> bool) (s : string) :
  forallb p (list_ascii_of_string s) = true ->
  forallb p (list_ascii_of_string (rstrip s)) = true.
Proof.
  induction s as [|c s IH]; simpl; auto.
  intros H. apply andb_true_iff in H. destruct H as [Hc Hs].
  specialize (IH Hs).
  destruct (rstrip s) as [|b r].
  - destruct (isspace c); simpl; auto. rewrite Hc. reflexivity.
  - simpl in *. rewrite Hc. exact IH.
Qed.

Lemma rstrip_idem (s : string) : rstrip (rstrip s) = rstrip s.
Proof.
  induction s as [|c s IH]; simpl; auto.
  destruct (rstrip s) as [|b r] eqn:E.
  - destruct (isspace c) eqn:Hc; simpl; auto. rewrite Hc. reflexivity.
  - change (rstrip (String c (String b r)))
      with (match rstrip (String b r) with
            | EmptyString => if isspace c then EmptyString else String c EmptyString
            | rest => String c rest
            end).
    rewrite IH. reflexivity.
Qed.

Lemma rstrip_no_trailing_space (s : string) (c : ascii) :
  isspace c = true -> endswith (rstrip s) (String c EmptyString) = false.
Proof.
  intros Hc. induction s as [|a s IH]; [reflexivity|].
  simpl rstrip. destruct (rstrip s) as [|b r] eqn:E.
  - destruct (isspace a) eqn:Ha; [reflexivity|].
    simpl. destruct (Ascii.eqb_spec a c) as [->|_]; [congruence|].
    reflexivity.
  - change (endswith (String a (String b r)) (String c EmptyString))
      with ((String a (String b r) =? String c EmptyString)
            || endswith (String b r) (String c EmptyString)).
    rewrite IH. simpl. destruct (a =? c)%char; reflexivity.
Qed.

End HelperFacts.

(** X13. [filename_safe s] holds no slash and does not end with a space;
    and when [s] is ASCII text, every character of it is a letter, a digit,
    a space, a hyphen or an underscore. *)
Theorem filename_safe_is_safe (s : string) :
  Exporter.no_slash (Helper.filename_safe s) = true
  /\ Helper.endswith (Helper.filename_safe s) " " = false
  /\ (Text.is_ascii s = true ->
      forallb Helper.safe_char (list_ascii_of_string (Helper.filename_safe s))
      = true).
Proof.
  assert (forallb Helper.safe_char
                  (list_ascii_of_string (Helper.filename_safe s)) = true) as H.
  { apply HelperFacts.rstrip_all, HelperFacts.keep_chars_all. }
  split; [|split; [|intros _; exact H]].
  - revert H. generalize (Helper.filename_safe s) as t.
    induction t as [|c t IH]; simpl; auto.
    intros H. apply andb_true_iff in H. destruct H as [Hc Ht].
    rewrite (IH Ht), andb_true_r.
    destruct (Ascii.eqb_spec c "/") as [->|_]; [discriminate | reflexivity].
  - apply HelperFacts.rstrip_no_trailing_space. reflexivity.
Qed.

(** X14. [filename_safe] changes nothing in a name it has produced. *)
Theorem filename_safe_idempotent (s : string) :
  Helper.filename_safe (Helper.filename_safe s) = Helper.filename_safe s.
Proof.
  unfold Helper.filename_safe.
  rewrite HelperFacts.keep_chars_id.
  - apply HelperFacts.rstrip_idem.
  - apply HelperFacts.rstrip_all, HelperFacts.keep_chars_all.
Qed.

(** ** Reading a body *)

Lemma read_body_until_dot (before after lines : list string) (dot : string) :
  forallb (fun l => negb (Helper.strip l =? ".")) before = true ->
  Helper.strip dot = "." ->
  Helper.read_body (before ++ dot :: after) lines
  = Some ((lines ++ before)%list, after).
Proof.
  revert lines. induction before as [|l before IH]; intros lines Hb Hd; simpl.
  - rewrite Hd, app_nil_r. reflexivity.
  - simpl in Hb. apply andb_true_iff in Hb. destruct Hb as [Hl Hb].
    apply negb_true_iff in Hl. rewrite Hl, (IH _ Hb Hd), <- app_assoc.
    reflexivity.
Qed.

Lemma read_body_no_dot (stdin lines : list string) :
  forallb (fun l => negb (Helper.strip l =? ".")) stdin = true ->
  Helper.read_body stdin lines = None.
Proof.
  revert lines. induction stdin as [|l stdin IH]; intros lines H; simpl; auto.
  simpl in H. apply andb_true_iff in H. destruct H as [Hl H].
  apply negb_true_iff in Hl. rewrite Hl. apply IH, H.
Qed.



(** ** Exporting one entry *)

Module ExportFacts.
Import Helper Exporter.

Lemma lower_char_idem (c : ascii) :
  Text.lower_char (Text.lower_char c) = Text.lower_char c.
Proof. destruct c as [[] [] [] [] [] [] [] []]; reflexivity. Qed.

Lemma lower_idem (s : string) : Text.lower (Text.lower s) = Text.lower s.
Proof.
  induction s as [|c s IH]; simpl; auto.
  rewrite lower_char_idem, IH. reflexivity.
Qed.

Lemma lower_app (a b : string) :
  Text.lower (a ++ b) = Text.lower a ++ Text.lower b.
Proof. induction a as [|c a IH]; simpl; auto. rewrite IH. reflexivity. Qed.

Lemma endswith_refl (s : string) : endswith s s = true.
Proof. destruct s; simpl; rewrite ?Ascii.eqb_refl, ?String.eqb_refl; reflexivity. Qed.

Lemma endswith_app (a b : string) : endswith (a ++ b) b = true.
Proof.
  induction a as [|c a IH]; simpl append.
  - apply endswith_refl.
  - simpl. rewrite IH. apply orb_true_r.
Qed.

Lemma with_extension_ends (path fmt : string) :
  endswith (Text.lower (with_extension path fmt)) ("." ++ Text.lower fmt) = true.
Proof.
  unfold with_extension.
  destruct (endswith (Text.lower path) ("." ++ Text.lower fmt)) eqn:E; [exact E|].
  rewrite lower_app.
  change (Text.lower ("." ++ Text.lower fmt))
    with ("." ++ Text.lower (Text.lower fmt)).
  rewrite lower_idem. apply endswith_app.
Qed.

Lemma with_extension_idem (path fmt : string) :
  with_extension (with_extension path fmt) fmt = with_extension path fmt.
Proof.
  unfold with_extension at 1. rewrite with_extension_ends. reflexivity.
Qed.

Lemma export_supported (fs : files) (e : Entry.t) (path fmt : string) :
  supported fmt = true ->
  export_entry_to_file fs e path fmt
  = Done (with_extension path fmt,
          write_file fs (with_extension path fmt) (header e ++ Entry.body e)).
Proof.
  unfold supported, export_entry_to_file. intros H. rewrite H. reflexivity.
Qed.

Lemma export_unsupported (fs : files) (e : Entry.t) (path fmt : string) :
  supported fmt = false ->
  export_entry_to_file fs e path fmt
  = Failed (ValueError "Unsupported export format").
Proof.
  unfold supported, export_entry_to_file. intros H. rewrite H. reflexivity.
Qed.

Lemma read_after_write (fs : files) (path content : string) :
  read_file (write_file fs path content) path = Some content.
Proof. unfold read_file, write_file. simpl. rewrite String.eqb_refl. reflexivity. Qed.

Lemma read_other_after_write (fs : files) (path content q : string) :
  q <> path -> read_file (write_file fs path content) q = read_file fs q.
Proof.
  intros H. unfold read_file, write_file. simpl.
  destruct (String.eqb_spec path q) as [E|_]; [congruence | reflexivity].
Qed.

Lemma one_line_app (a b : string) :
  one_line (a ++ b) = one_line a && one_line b.
Proof.
  induction a as [|c a IH]; simpl; auto.
  rewrite IH, andb_assoc. reflexivity.
Qed.

Lemma skip_line_app (a s : string) :
  one_line a = true -> skip_line (a ++ s) = skip_line s.
Proof.
  induction a as [|c a IH]; simpl; auto.
  intros H. apply andb_true_iff in H. destruct H as [Hc Ha].
  apply negb_true_iff in Hc. rewrite Hc. apply IH, Ha.
Qed.

Lemma skip_line_nl (s : string) : skip_line (nl ++ s) = s.
Proof. reflexivity. Qed.

Lemma append_assoc (a b c : string) : (a ++ b) ++ c = a ++ b ++ c.
Proof. induction a as [|x a IH]; simpl; auto. rewrite IH. reflexivity. Qed.

Lemma one_line_tags (tags : list string) :
  forallb one_line tags = true -> one_line (String.concat ", " tags) = true.
Proof.
  induction tags as [|t tags IH]; [reflexivity|].
  intros H. simpl in H. apply andb_true_iff in H. destruct H as [Ht Hs].
  destruct tags as [|u tags]; [exact Ht|].
  change (String.concat ", " (t :: u :: tags))
    with (t ++ ", " ++ String.concat ", " (u :: tags)).
  rewrite !one_line_app, Ht, (IH Hs). reflexivity.
Qed.

Lemma skip_header (e : Entry.t) (rest : string) :
  one_line (Entry.title e) = true -> one_line (Entry.date e) = true ->
  one_line (Entry.mood e) = true -> forallb one_line (Entry.tags e) = true ->
  skip_lines 4 (header e ++ rest) = rest.
Proof.
  intros Ht Hd Hm Hg. apply one_line_tags in Hg.
  change (skip_lines 4 (header e ++ rest))
    with (skip_line (skip_line (skip_line (skip_line (header e ++ rest))))).
  unfold header. rewrite !append_assoc.
  rewrite (skip_line_app _ _ Ht), (skip_line_app " - ") by reflexivity.
  rewrite (skip_line_app _ _ Hd), skip_line_nl.
  rewrite (skip_line_app "Mood: ") by reflexivity.
  rewrite (skip_line_app _ _ Hm), skip_line_nl.
  rewrite (skip_line_app "Tags: ") by reflexivity.
  rewrite (skip_line_app _ _ Hg), skip_line_nl.
  apply skip_line_nl.
Qed.

End ExportFacts.

(** X16. [export_entry_to_file] accepts exactly the formats [txt] and [md],
    in any case, and raises [ValueError] for any other without writing.
    For an accepted format the path it returns ends with a dot and the
    format in lower case, case ignored; the file at that path then holds
    the header and the body; every other path reads as before; and
    exporting to the returned path returns that same path. *)
Theorem export_entry_to_file_path
        (fs : Exporter.files) (e : Entry.t) (path fmt : string) :
  if supported fmt then
    exists p fs',
      Exporter.export_entry_to_file fs e path fmt = Done (p, fs')
      /\ Helper.endswith (Text.lower p) ("." ++ Text.lower fmt) = true
      /\ Exporter.read_file fs' p = Some (Exporter.header e ++ Entry.body e)
      /\ (forall q, q <> p -> Exporter.read_file fs' q = Exporter.read_file fs q)
      /\ (exists fs'', Exporter.export_entry_to_file fs' e p fmt = Done (p, fs''))
  else
    Exporter.export_entry_to_file fs e path fmt
    = Failed (ValueError "Unsupported export format").
Proof.
  destruct (supported fmt) eqn:S.
  - rewrite (ExportFacts.export_supported _ _ _ _ S).
    eexists. eexists. split; [reflexivity|].
    split; [apply ExportFacts.with_extension_ends|].
    split; [apply ExportFacts.read_after_write|].
    split; [intros q Hq; apply ExportFacts.read_other_after_write, Hq|].
    rewrite (ExportFacts.export_supported _ _ _ _ S),
      ExportFacts.with_extension_idem.
    eexists. reflexivity.
  - apply ExportFacts.export_unsupported, S.
Qed.

(** X17. When the title, the date, the mood and the tags of an entry hold no
    line break, the file [export_entry_to_file] writes is four header lines
    followed by the body, unchanged: what follows the fourth line break of
    the file is the body. *)
Theorem export_entry_to_file_keeps_body
        (fs : Exporter.files) (e : Entry.t) (path fmt : string) :
  supported fmt = true ->
  Exporter.one_line (Entry.title e) = true ->
  Exporter.one_line (Entry.date e) = true ->
  Exporter.one_line (Entry.mood e) = true ->
  forallb Exporter.one_line (Entry.tags e) = true ->
  exists p fs',
    Exporter.export_entry_to_file fs e path fmt = Done (p, fs')
    /\ option_map (Exporter.skip_lines 4) (Exporter.read_file fs' p)
       = Some (Entry.body e).
Proof.
  intros S Ht Hd Hm Hg.
  rewrite (ExportFacts.export_supported _ _ _ _ S).
  eexists. eexists. split; [reflexivity|].
  rewrite ExportFacts.read_after_write.
  unfold option_map. f_equal.
  apply (ExportFacts.skip_header e _ Ht Hd Hm Hg).
Qed.

Lemma export_entry_to_file_keeps_body_witness :
  exists p fs',
    Exporter.export_entry_to_file [] letter "notes" "MD" = Done (p, fs')
    /\ option_map (Exporter.skip_lines 4) (Exporter.read_file fs' p)
       = Some (Entry.body letter).
Proof.
  apply (export_entry_to_file_keeps_body [] letter "notes" "MD"); reflexivity.
Defined.

(** ** Exporting every entry *)

Lemma export_loop_supported
      (fs : Exporter.files) (entries : list Entry.t) (folder fmt : string)
      (created : list string) :
  supported fmt = true ->
  Exporter.export_loop fs entries folder fmt created
  = Done ((created ++ map (fun e => fst (exported_file folder fmt e)) entries)%list,
          (rev (map (exported_file folder fmt) entries) ++ fs)%list).
Proof.
  intros S. revert fs created.
  induction entries as [|e entries IH]; intros fs created; simpl.
  - rewrite app_nil_r. reflexivity.
  - rewrite (ExportFacts.export_supported _ _ _ _ S), IH.
    unfold Exporter.write_file, exported_file.
    rewrite <- !app_assoc. reflexivity.
Qed.

Lemma makedirs_named (folder : string) :
  folder <> "" -> Exporter.makedirs folder = Done tt.
Proof.
  intros H. unfold Exporter.makedirs.
  apply String.eqb_neq in H. rewrite H. reflexivity.
Qed.


Lemma find_path_skip (older newer : Exporter.files) (path : string) :
  Forall (fun f => fst f <> path) newer ->
  find (fun f => fst f =? path) (newer ++ older)
  = find (fun f => fst f =? path) older.
Proof.
  induction 1 as [|f newer Hf Hn IH]; simpl; auto.
  apply String.eqb_neq in Hf. rewrite Hf. exact IH.
Qed.



(** ** Where the exported files go *)

Lemma no_slash_app (a b : string) :
  Exporter.no_slash (a ++ b) = Exporter.no_slash a && Exporter.no_slash b.
Proof.
  induction a as [|c a IH]; simpl; auto.
  rewrite IH, andb_assoc. reflexivity.
Qed.

Lemma no_slash_all_safe (s : string) :
  forallb Helper.safe_char (list_ascii_of_string s) = true ->
  Exporter.no_slash s = true.
Proof.
  induction s as [|c s IH]; simpl; auto.
  intros H. apply andb_true_iff in H. destruct H as [Hc Hs].
  rewrite (IH Hs), andb_true_r.
  destruct (Ascii.eqb_spec c "/") as [->|_]; [discriminate | reflexivity].
Qed.

Lemma filename_safe_no_slash (s : string) :
  Exporter.no_slash (Helper.filename_safe s) = true.
Proof.
  apply no_slash_all_safe, HelperFacts.rstrip_all, HelperFacts.keep_chars_all.
Qed.

Lemma path_join_no_slash (folder name : string) :
  Exporter.no_slash name = true ->
  Exporter.path_join folder name = folder_prefix folder ++ name.
Proof.
  intros H. unfold Exporter.path_join, folder_prefix.
  assert (String.prefix "/" name = false) as P.
  { destruct name as [|c name]; [reflexivity|].
    simpl in H. apply andb_true_iff in H. destruct H as [Hc _].
    apply negb_true_iff, Ascii.eqb_neq in Hc.
    cbn [String.prefix].
    destruct (ascii_dec "/" c) as [E|_]; [congruence | reflexivity]. }
  rewrite P. destruct ((folder =? "") || Helper.endswith folder "/"); auto.
  rewrite ExportFacts.append_assoc. reflexivity.
Qed.

Lemma entry_path_in_folder (folder : string) (e : Entry.t) :
  Exporter.no_slash (Entry.date e) = true ->
  Exporter.no_slash (Entry.id e) = true ->
  exists name,
    Exporter.no_slash name = true
    /\ Exporter.entry_path folder e = folder_prefix folder ++ name.
Proof.
  intros Hd Hi. unfold Exporter.entry_path.
  destruct (Helper.filename_safe _ =? "") eqn:E.
  - exists (Entry.id e). split; [exact Hi | apply path_join_no_slash, Hi].
  - eexists. split; [|apply path_join_no_slash].
    all: rewrite !no_slash_app, Hd, filename_safe_no_slash; reflexivity.
Qed.



(** * Properties of the interactive layer *)

(** ** Tags typed on a line *)

Module TagFacts.
Import Text Helper.

Lemma split_pieces_no_comma (s : string) : forallb no_comma (split s) = true.
Proof.
  induction s as [|c s IH]; [reflexivity|].
  simpl split. destruct (c =? ",")%char eqn:Hc; [exact IH|].
  destruct (split s) as [|piece pieces]; simpl in *; rewrite Hc; auto.
Qed.

Lemma lstrip_no_comma (s : string) : no_comma s = true -> no_comma (lstrip s) = true.
Proof.
  induction s as [|c s IH]; simpl; auto.
  intros H. destruct (isspace c); [|exact H].
  apply andb_true_iff in H. apply IH, H.
Qed.

Lemma rstrip_no_comma (s : string) : no_comma s = true -> no_comma (rstrip s) = true.
Proof.
  induction s as [|c s IH]; simpl; auto.
  intros H. apply andb_true_iff in H. destruct H as [Hc Hs].
  specialize (IH Hs). destruct (rstrip s) as [|b r].
  - destruct (isspace c); simpl; auto. rewrite Hc. reflexivity.
  - simpl in *. rewrite Hc. exact IH.
Qed.

Lemma typed_tags_no_comma (tags_in : string) :
  forallb no_comma (typed_tags tags_in) = true.
Proof.
  unfold typed_tags. pose proof (split_pieces_no_comma tags_in) as H.
  induction (split tags_in) as [|t l IH]; [reflexivity|].
  simpl in H. apply andb_true_iff in H. destruct H as [Ht Hl].
  simpl. destruct (strip t =? ""); simpl; [exact (IH Hl)|].
  rewrite (IH Hl), andb_true_r.
  apply rstrip_no_comma, lstrip_no_comma, Ht.
Qed.

Lemma typed_tags_nonempty (tags_in : string) :
  forallb (fun t => negb (t =? "")) (typed_tags tags_in) = true.
Proof.
  unfold typed_tags. induction (map strip (split tags_in)) as [|t l IH];
    [reflexivity|].
  simpl. destruct (t =? "") eqn:E; simpl; [exact IH|].
  rewrite E. exact IH.
Qed.

Lemma typed_tags_ok (tags_in : string) : tags_ok (typed_tags tags_in) = true.
Proof.
  unfold tags_ok. rewrite typed_tags_no_comma. simpl.
  pose proof (typed_tags_nonempty tags_in) as H.
  destruct (typed_tags tags_in) as [|t [|u l]]; auto.
  simpl in H. rewrite andb_true_r in H. exact H.
Qed.

Lemma split_single_empty (s : string) : split s = [""] -> s = "".
Proof.
  destruct s as [|c s]; [reflexivity|].
  simpl. destruct (c =? ",")%char.
  - intros H. inversion H as [H']. exfalso. exact (TextFacts.split_nonempty s H').
  - destruct (split s); discriminate.
Qed.

(** The tags read from a column are always tags the column gives back. *)
Lemma decode_ok (column : string) : tags_ok (decode column) = true.
Proof.
  unfold tags_ok, decode. destruct (String.eqb_spec column "") as [->|N];
    [reflexivity|].
  rewrite split_pieces_no_comma. simpl.
  destruct (split column) as [|t [|u l]] eqn:E; auto.
  destruct (String.eqb_spec t "") as [->|_]; [|reflexivity].
  exfalso. apply N. apply split_single_empty, E.
Qed.

End TagFacts.

(** X21. Whatever line is typed for the tags, the tag list the interactive
    layer builds from it holds no empty tag and no tag with a comma, so it
    is a list the relational backend stores and gives back unchanged. *)
Theorem typed_tags_survive_the_column (tags_in : string) :
  forallb (fun t => negb (t =? "")) (typed_tags tags_in) = true
  /\ tags_ok (typed_tags tags_in) = true
  /\ Text.decode (Text.join (typed_tags tags_in)) = typed_tags tags_in.
Proof.
  split; [apply TagFacts.typed_tags_nonempty|].
  split; [apply TagFacts.typed_tags_ok|].
  apply TextFacts.decode_join, TagFacts.typed_tags_ok.
Qed.

(** ** Running the methods of [DiaryApp] *)

Section Running.

Context {store : Type} {backend : StorageInterface store}.

Lemma run_input {A : Type} (prompt line : string) (rest out : list string)
      (s : store) (k : string -> action store A) :
  (x <- input prompt ;; k x) (World (line :: rest) out s)
  = k line (World rest (out ++ [prompt])%list s).
Proof. reflexivity. Qed.

Lemma run_print {A : Type} (text : string) (w : world store)
      (k : action store A) :
  (print text ;;; k) w
  = k (World (stdin w) (stdout w ++ [(text ++ Helper.nl)%string])%list (storage w)).
Proof. reflexivity. Qed.

Lemma run_prompt_multiline {A : Type} (msg dot : string)
      (body rest out : list string) (s : store) (k : string -> action store A) :
  no_dot_line body = true -> Helper.strip dot = "." ->
  (x <- prompt_multiline msg ;; k x) (World (body ++ dot :: rest) out s)
  = k (String.concat Helper.nl body)
      (World rest (out ++ [(msg ++ Helper.nl)%string])%list s).
Proof.
  intros Hb Hd. unfold prompt_multiline, bind, print. simpl.
  unfold Helper.prompt_multiline.
  rewrite (read_body_until_dot body rest [] dot Hb Hd). reflexivity.
Qed.

Lemma typed_tags_blank (tags_in : string) :
  (if tags_in =? "" then [] else typed_tags tags_in) = typed_tags tags_in.
Proof. destruct (String.eqb_spec tags_in "") as [->|_]; reflexivity. Qed.

(** What [add_new_entry] does with a full set of answers, up to the call of
    the backend. *)
Lemma add_new_entry_run
      (reformat : string -> option string)
      (date_l title_l mood_l tags_l dot today uuid now d : string)
      (body rest out : list string) (s : store) :
  (if Helper.strip date_l =? "" then Some today
   else reformat (Helper.strip date_l)) = Some d ->
  no_dot_line body = true -> Helper.strip dot = "." ->
  exists out',
    DiaryApp.add_new_entry
      reformat today uuid now
      (World (date_l :: title_l :: body ++ dot :: mood_l :: tags_l :: rest) out s)
    = match add_entry s (Draft.mk None (Some d) (Some (Helper.strip title_l))
                                  (Some (String.concat Helper.nl body))
                                  (Some (Helper.strip mood_l))
                                  (Some (typed_tags (Helper.strip tags_l))))
                      uuid now with
      | Ok (entry_id, s') =>
          (Done tt,
           World rest (out' ++ [("Saved entry " ++ entry_id ++ Helper.nl)%string])%list s')
      | Raise x => (Failed (StorageError x), World rest out' s)
      end.
Proof.
  intros Hdate Hb Hd. unfold DiaryApp.add_new_entry.
  rewrite run_input.
  assert ((if Helper.strip date_l =? "" then Done today
           else DiaryApp.parse_date reformat (Helper.strip date_l)) = Done d) as ->.
  { unfold DiaryApp.parse_date.
    destruct (Helper.strip date_l =? "").
    - inversion Hdate. reflexivity.
    - rewrite Hdate. reflexivity. }
  rewrite run_input, run_print. simpl stdin. simpl stdout. simpl storage.
  rewrite (run_prompt_multiline _ dot body _ _ _ _ Hb Hd).
  rewrite !run_input. rewrite typed_tags_blank.
  unfold bind, DiaryApp.storage_add, print. simpl storage.
  destruct (add_entry s _ uuid now) as [[entry_id s']|x];
    simpl; eexists; reflexivity.
Qed.


End Running.

Section RunningEdit.

Context {store : Type} {backend : StorageInterface store}.

Lemma run_read {A B : Type} (query : store -> A) (w : world store)
      (k : A -> action store B) :
  (x <- DiaryApp.storage_read query ;; k x) w = k (query (storage w)) w.
Proof. reflexivity. Qed.

(** What [edit_entry] does with a full set of answers for an id that is
    found, up to the call of the backend. *)
Lemma edit_entry_run
      (reformat : string -> option string)
      (id_l date_l title_l mood_l tags_l dot now d : string)
      (body rest out : list string) (s : store) (e : Entry.t) :
  get_entry s (Helper.strip id_l) = Some e ->
  (if Helper.strip date_l =? "" then Some (Entry.date e)
   else reformat (Helper.strip date_l)) = Some d ->
  no_dot_line body = true -> Helper.strip dot = "." ->
  exists out',
    DiaryApp.edit_entry
      reformat now
      (World (id_l :: date_l :: title_l :: body ++ dot :: mood_l :: tags_l :: rest)
             out s)
    = match update_entry
              s (Helper.strip id_l)
              (Draft.mk None (Some d)
                        (Some (or_else (Helper.strip title_l) (Entry.title e)))
                        (Some (or_else (String.concat Helper.nl body) (Entry.body e)))
                        (Some (or_else (Helper.strip mood_l) (Entry.mood e)))
                        (Some (if Helper.strip tags_l =? "" then Entry.tags e
                               else typed_tags (Helper.strip tags_l))))
              now with
      | Ok (ok, s') =>
          (Done tt,
           World rest
                 (out' ++ [((if ok : bool then "Updated" else "Failed to update")
                            ++ Helper.nl)%string])%list
                 s')
      | Raise x => (Failed (StorageError x), World rest out' s)
      end.
Proof.
  intros G Hdate Hb Hd. unfold DiaryApp.edit_entry.
  rewrite run_input, run_read. cbn [storage]. rewrite G.
  rewrite run_print. cbn [stdin stdout storage]. rewrite run_input.
  assert ((if Helper.strip date_l =? "" then Done (Entry.date e)
           else DiaryApp.parse_date reformat (Helper.strip date_l)) = Done d) as ->.
  { unfold DiaryApp.parse_date.
    destruct (Helper.strip date_l =? "").
    - inversion Hdate. reflexivity.
    - rewrite Hdate. reflexivity. }
  rewrite run_input, run_print. cbn [stdin stdout storage].
  rewrite (run_prompt_multiline _ dot body _ _ _ _ Hb Hd).
  rewrite !run_input.
  unfold bind, DiaryApp.storage_update, print, or_else. cbn [storage].
  destruct (update_entry s _ _ now) as [[ok s']|x];
    cbn [stdin stdout storage]; eexists; reflexivity.
Qed.

End RunningEdit.

(** ** Adding and editing at the terminal *)


Lemma sqlite_get_entry_is_decoded
      (s : SQLiteStorage.store) (entry_id : string) (e : Entry.t) :
  SQLiteStorage.get_entry s entry_id = Some e ->
  tags_ok (Entry.tags e) = true.
Proof.
  unfold SQLiteStorage.get_entry.
  destruct (find _ s) as [r|]; [|discriminate].
  intros H. inversion H; subst e. simpl. apply TagFacts.decode_ok.
Qed.




(** ** Mood statistics *)

Module MoodFacts.
Import Mood.

Lemma dict_get_set_same (key : string) (value : nat) (d : counts) :
  dict_get key (dict_set key value d) = value.
Proof.
  unfold dict_get. induction d as [|[k c] d IH]; simpl.
  - rewrite String.eqb_refl. reflexivity.
  - destruct (k =? key) eqn:E; simpl; rewrite E; auto.
Qed.

Lemma dict_get_set_other (key other : string) (value : nat) (d : counts) :
  other <> key -> dict_get other (dict_set key value d) = dict_get other d.
Proof.
  intros N. unfold dict_get. induction d as [|[k c] d IH]; simpl.
  - destruct (String.eqb_spec key other) as [E|_]; [congruence | reflexivity].
  - destruct (String.eqb_spec k key) as [E|E]; simpl.
    + subst k. destruct (String.eqb_spec key other) as [E'|_];
        [congruence | reflexivity].
    + destruct (k =? other); auto.
Qed.

Lemma dict_set_sum (key : string) (d : counts) :
  list_sum (map snd (dict_set key (dict_get key d + 1) d))
  = S (list_sum (map snd d)).
Proof.
  unfold dict_get. induction d as [|[k c] d IH]; simpl; auto.
  destruct (k =? key) eqn:E; simpl.
  - lia.
  - rewrite IH. lia.
Qed.

Lemma dict_set_keys (key : string) (value : nat) (d : counts) :
  NoDup (map fst d) -> NoDup (map fst (dict_set key value d)).
Proof.
  induction d as [|[k c] d IH]; simpl; intros H.
  - repeat constructor. simpl. tauto.
  - inversion H as [|? ? Hk Hd]; subst.
    destruct (String.eqb_spec k key) as [E|E]; simpl.
    + constructor; assumption.
    + constructor; [|apply IH, Hd].
      intros Hin. apply Hk. clear IH H Hk Hd.
      induction d as [|[k' c'] d IHd]; simpl in *.
      * destruct Hin as [Hin|[]]. congruence.
      * destruct (k' =? key); simpl in Hin; destruct Hin as [Hin|Hin]; auto.
Qed.

Lemma after_asym (x y : string * nat) : after x y = true -> after y x = false.
Proof.
  unfold after. intros H. apply orb_true_iff in H. destruct H as [H|H].
  - apply Nat.ltb_lt in H.
    rewrite (proj2 (Nat.ltb_ge _ _)) by lia.
    rewrite (proj2 (Nat.eqb_neq _ _)) by lia. reflexivity.
  - apply andb_true_iff in H. destruct H as [He Hl].
    apply Nat.eqb_eq in He.
    rewrite (proj2 (Nat.ltb_ge _ _)) by lia.
    rewrite (ltb_asym _ _ Hl), andb_false_r. reflexivity.
Qed.

Lemma not_after_ranking (x y : string * nat) :
  after x y = false -> ranking_order x y.
Proof.
  unfold after, ranking_order. intros H.
  apply orb_false_iff in H. destruct H as [Hlt Hand].
  apply Nat.ltb_ge in Hlt.
  destruct (Nat.eqb_spec (snd x) (snd y)) as [E|N]; [|left; lia].
  right. split; [exact E|]. simpl in Hand. apply ltb_false_leb, Hand.
Qed.

End MoodFacts.

(** X25. The tally of [mood_stats] has each label once; the count of a
    label is the number of entries that have it; and the counts add up to
    the number of entries. *)
Theorem mood_count_counts (entries : list Entry.t) (m : string) :
  NoDup (map fst (Mood.mood_count entries))
  /\ Mood.dict_get m (Mood.mood_count entries)
     = count_occ string_dec (map Mood.label entries) m
  /\ list_sum (map snd (Mood.mood_count entries)) = length entries.
Proof.
  unfold Mood.mood_count.
  assert (forall d,
             NoDup (map fst d) ->
             let d' := fold_left
                         (fun d e => Mood.dict_set (Mood.label e)
                                       (Mood.dict_get (Mood.label e) d + 1) d)
                         entries d in
             NoDup (map fst d')
             /\ Mood.dict_get m d'
                = Mood.dict_get m d
                  + count_occ string_dec (map Mood.label entries) m
             /\ list_sum (map snd d') = list_sum (map snd d) + length entries)
    as H.
  { induction entries as [|e entries IH]; intros d Hd; simpl.
    - repeat split; auto.
    - destruct (IH (Mood.dict_set (Mood.label e)
                                  (Mood.dict_get (Mood.label e) d + 1) d)
                   (MoodFacts.dict_set_keys _ _ _ Hd)) as [H1 [H2 H3]].
      split; [exact H1|]. split.
      + rewrite H2. destruct (string_dec (Mood.label e) m) as [E|N].
        * subst m. rewrite MoodFacts.dict_get_set_same. lia.
        * rewrite MoodFacts.dict_get_set_other by congruence. lia.
      + rewrite H3, MoodFacts.dict_set_sum. lia. }
  destruct (H [] (NoDup_nil _)) as [H1 [H2 H3]].
  split; [exact H1|]. split; [exact H2 | exact H3].
Qed.

(** X26. The ranking [mood_stats] prints holds the items of the tally, the
    greater count first and, among equal counts, the labels in ascending
    order. *)
Theorem mood_ranking_ordered (d : Mood.counts) :
  Permutation (Mood.ranked d) d
  /\ Sorted Mood.ranking_order (Mood.ranked d).
Proof.
  unfold Mood.ranked. split; [apply sorted_desc_perm|].
  eapply Sorted_weaken; [|apply sorted_desc_sorted].
  - intros x y. apply MoodFacts.not_after_ranking.
  - intros x y. apply MoodFacts.after_asym.
Qed.
